(** * migrate-auth0-users: a shallow embedding of the migration scripts

    The repository holds command-line scripts that move user accounts
    from Auth0 to WorkOS.  Five of them are embedded here:

    - [MigrateUsers]      (migrate-auth0-users): create or update one WorkOS
                          user per exported Auth0 user;
    - [UpdateAuth0Users]  (update-auth0-users): write the WorkOS id back
                          into the Auth0 user's metadata;
    - [ImportPasswords]   (the password import): attach a password hash to
                          the WorkOS user found by email;
    - [IdentifyUsers]     (identify-auth0-users): decide which of several
                          local accounts sharing an email is kept;
    - [UpdateWorkosIds]   (update-workos-ids): generate the SQL statements
                          that record the WorkOS id of the accounts kept.

    (The shell script that downloads the export is not.)

    Remote services and the file system are an environment: every call
    a script makes is answered by an oracle over an abstract world, and
    is recorded, with its failure if any, in a trace.  A promise is a
    computation over that state that resolves or rejects.  The world and
    the oracle are arbitrary, so a property proved for all of them holds
    for every sequence of answers the services can give, whatever other
    tasks do to the services in between.

    The file has four parts: the embedding, the vocabulary of the
    properties, sample data, and the properties with their examples. *)

From Stdlib Require Import ZArith Lia Ascii String.
From stdpp Require Import base option list sorting gmap strings pretty.

Local Open Scope string_scope.
Local Open Scope list_scope.

(** ** JavaScript values and operators used by the scripts *)
Module Js.

(** [ToBoolean] of a [string | undefined]: [undefined] and the empty
    string are falsy. *)
Definition truthy (s : option string) : bool :=
  match s with
  | Some (String _ _) => true
  | _ => false
  end.

(** [a ?? b]: [b] only when [a] is [null] or [undefined]. *)
Definition nullish {A} (a : option A) (b : A) : A :=
  match a with
  | Some v => v
  | None => b
  end.

(** A JavaScript number as far as the scripts compute with it: an
    integer (seconds, milliseconds and login counts are far below 2^53,
    where doubles are exact) or [NaN]. *)
Inductive number :=
| Num (z : Z)
| NaN.

Definition add (a b : number) : number :=
  match a, b with
  | Num x, Num y => Num (x + y)
  | _, _ => NaN
  end.

Definition sub (a b : number) : number :=
  match a, b with
  | Num x, Num y => Num (x - y)
  | _, _ => NaN
  end.

(** [Number(v)] for [v : string | null].  [Number(null)] is [+0]; a
    string goes through [StringToNumber], which is left to the caller
    (the scripts never inspect how a header is parsed). *)
Definition Number (StringToNumber : string -> number) (v : option string) : number :=
  match v with
  | None => Num 0
  | Some s => StringToNumber s
  end.

(** [Array.prototype.sort(comparefn)].  The standard asks for a stable
    sort that reads a [NaN] from [comparefn] as [+0]; for a consistent
    [comparefn] the outcome is then unique, and is what this insertion
    sort computes.  For an inconsistent [comparefn] the standard leaves
    the order to the engine: there this definition gives one
    rearrangement of the array, which need not be the engine's, and
    nothing that depends on the order is stated of it. *)
Definition sign (v : number) : Z :=
  match v with
  | Num z => z
  | NaN => 0
  end.

Fixpoint insert {A} (comparefn : A -> A -> number) (x : A) (sorted : list A) : list A :=
  match sorted with
  | [] => [x]
  | y :: rest =>
      if (sign (comparefn x y) <=? 0)%Z then x :: y :: rest
      else y :: insert comparefn x rest
  end.

Definition sort {A} (comparefn : A -> A -> number) (l : list A) : list A :=
  foldr (insert comparefn) [] l.

(** A value of type [any] read from JSON. *)
#[warnings="-register-all"]
Inductive json :=
| JNull
| JBool (b : bool)
| JNumber (n : Z)
| JString (s : string)
| JArray (items : list json)
| JObject (fields : list (string * json)).

(** Property read [o.k] on the list of an object's own properties, each
    key listed once: [None] is [undefined]. *)
Fixpoint get (k : string) (fields : list (string * json)) : option json :=
  match fields with
  | [] => None
  | (k', v) :: rest => if String.eqb k k' then Some v else get k rest
  end.

End Js.

(** ** Exceptions the scripts distinguish *)
Inductive exn :=
  (** WorkOS SDK: HTTP 429, with [retryAfter : number | null]. *)
| RateLimitExceededException (retryAfter : option Z)
  (** Auth0 SDK: any API error, with its status code and the value of
      [headers.get("retry-after")] ([None] is [null]). *)
| ManagementApiError (statusCode : Z) (retry_after : option string)
  (** zod: a line that does not have the expected shape. *)
| ZodError
  (** anything else (network failure, validation error, file system). *)
| OtherError (message : string).

Definition isRateLimitExceededException (e : exn) : bool :=
  match e with
  | RateLimitExceededException _ => true
  | _ => false
  end.

(** [error instanceof ManagementApiError && error.statusCode === 429] *)
Definition isManagementApiError429 (e : exn) : bool :=
  match e with
  | ManagementApiError status _ => (status =? 429)%Z
  | _ => false
  end.

(** ** Records *)

(** A WorkOS user, with the fields the scripts read. *)
Record User := {
  id : string;
  user_email : string;
  emailVerified : bool;
}.

(** src/auth0-exported-user.ts *)
Record Auth0ExportedUser := {
  user_id : string;
  email : string;
  email_verified : option Js.json;
  name : string;
  family_name : option string;
  given_name : option string;
  nickname : string;
  picture : string;
  provider : string;
  created_at : string;
  updated_at : string;
  region : option string;
  workos_user_id : option string;
}.

(** Arguments of [workos.userManagement.createUser]. *)
Record CreateUserOptions := {
  cu_email : string;
  cu_emailVerified : bool;
  cu_firstName : option string;
  cu_lastName : option string;
  cu_metadata : list (string * string);
}.

(** Arguments of [workos.userManagement.updateUser]. *)
Record UpdateUserOptions := {
  uu_userId : string;
  uu_emailVerified : option bool;
  uu_firstName : option string;
  uu_lastName : option string;
  uu_metadata : list (string * string);
  uu_passwordHash : option string;
  uu_passwordHashType : option string;
}.

(** One line of out/migration-results.jsonl. *)
Record MigrationResult := {
  mr_workos_user_id : string;
  mr_auth0_user_id : string;
  mr_created : bool;
}.

(** identify-auth0-users: one row of the duplicates CSV (every cell is a
    string; a column the file lacks is [undefined]). *)
Record DuplicateUser := {
  du_username : string;
  du_email : string;
  du_name : string;
  du_createdAt : string;
  du_updatedAt : string;
  du_isDustSuperUser : bool;
  auth0Sub : option string;
  sId : string;
  du_id : string;
  workOSUserId : option string;
}.

(** identify-auth0-users: an account as Auth0 returns it. *)
Record Auth0User := {
  a0_user_id : string;
  a0_email : string;
  last_login : option string;
  last_ip : option string;
  logins_count : option Z;
  a0_created_at : string;
  a0_updated_at : string;
}.

Inductive Action := keep | skip | manual_review.

#[global] Instance Action_eq_dec : EqDecision Action.
Proof. solve_decision. Defined.

Record ProcessingResult := {
  pr_email : string;
  duplicates : list DuplicateUser;
  auth0Users : list Auth0User;
  userToKeep : option DuplicateUser;
  auth0User : option Auth0User;
  action : Action;
  reason : string;
  requiresManualReview : option bool;
}.

(** What [fs.writeFile(path, JSON.stringify(v) + "\n", { flag: "a" })]
    appends: the value whose JSON text makes the line. *)
Inductive file_line :=
| LedgerLine (r : MigrationResult)
| DecisionLine (r : ProcessingResult).

(** [app_metadata] of an Auth0 user update. *)
Inductive app_metadata :=
| Meta_workos_user_id (workos_user_id : string)
  (** [{ password_imported_to_workos: new Date().toISOString() }] *)
| Meta_password_imported_to_workos.

(** ** Calls into the environment, promises *)

Inductive call :=
| workos_getUser (userId : string)
| workos_createUser (payload : CreateUserOptions)
| workos_updateUser (payload : UpdateUserOptions)
| workos_listUsers (email : string)
| auth0_users_update (id : string) (data : app_metadata)
| auth0_users_getAll (q : string)
| fs_writeFile_append (path : string) (data : file_line).

(** What a call resolves with.  [auth0.users.getAll] resolves with a
    response whose [data] may be missing. *)
Definition response (c : call) : Type :=
  match c with
  | workos_getUser _ => User
  | workos_createUser _ => User
  | workos_updateUser _ => User
  | workos_listUsers _ => list User
  | auth0_users_update _ _ => unit
  | auth0_users_getAll _ => option (list Auth0User)
  | fs_writeFile_append _ _ => unit
  end.

Inductive result (A : Type) :=
| Resolved (a : A)
| Rejected (error : exn).
Arguments Resolved {A} a.
Arguments Rejected {A} error.

Inductive stream := stdout | stderr.

Inductive event :=
  (** a call, and the error it failed with *)
| Called (c : call) (failure : option exn)
  (** [console.log], [console.warn] (stdout side) and [console.error],
      with the error object printed after the message, if any *)
| Console (s : stream) (message : string) (error : option exn)
  (** [await sleep(ms)] *)
| Slept (ms : Js.number).

Definition failure_of {A} (r : result A) : option exn :=
  match r with
  | Resolved _ => None
  | Rejected e => Some e
  end.

Section Promises.

(** The world outside (the WorkOS directory, the Auth0 tenant, the
    disk) and how it answers each call. *)
Context {W : Type}.

Definition Services := forall c : call, W -> result (response c) * W.

Record state := {
  world : W;
  trace : list event;
}.

(** [Promise<A>], run to completion. *)
Definition Promise (A : Type) := state -> result A * state.

Definition ret {A} (a : A) : Promise A := fun st => (Resolved a, st).

Definition throw {A} (e : exn) : Promise A := fun st => (Rejected e, st).

(** [await p] followed by the rest of the function. *)
Definition bind {A B} (p : Promise A) (k : A -> Promise B) : Promise B :=
  fun st =>
    match p st with
    | (Resolved a, st') => k a st'
    | (Rejected e, st') => (Rejected e, st')
    end.

(** [try { body } catch (error) { handler }]: only what [body] awaits
    is guarded. *)
Definition try_catch {A} (body : Promise A) (handler : exn -> Promise A) : Promise A :=
  fun st =>
    match body st with
    | (Resolved a, st') => (Resolved a, st')
    | (Rejected e, st') => handler e st'
    end.

Definition emit (ev : event) : Promise unit :=
  fun st => (Resolved tt, {| world := world st; trace := trace st ++ [ev] |}).

Definition perform (svc : Services) (c : call) : Promise (response c) :=
  fun st =>
    let (r, w) := svc c (world st) in
    (r, {| world := w; trace := trace st ++ [Called c (failure_of r)] |}).

Definition console_log (message : string) (error : option exn) : Promise unit :=
  emit (Console stdout message error).

Definition console_error (message : string) (error : option exn) : Promise unit :=
  emit (Console stderr message error).

Definition sleep (ms : Js.number) : Promise unit := emit (Slept ms).

End Promises.

Arguments Services W : clear implicits.
Arguments state W : clear implicits.
Arguments Promise W A : clear implicits.

(** [const x = await p; k] *)
Notation "'let*' x ':=' p 'in' k" := (bind p (fun x => k))
  (at level 10, x name, p at level 100, k at level 200, only parsing).
(** [await p; k] *)
Notation "'do*' p 'in' k" := (bind p (fun _ => k))
  (at level 10, p at level 100, k at level 200, only parsing).

(** ** The dispatcher *)
Module PQueue.

(** Modelled from the spec: the queue of the scripts is the [p-queue]
    package, whose code is not among the repository's sources.  The
    specification (4.2) gives it [activeCount], a capacity fixed at
    construction and [paused].  Tasks are named by their record number;
    [running] holds the tasks in flight and [waiting] the tasks
    submitted and not yet dispatched, oldest first. *)
Record Queue := {
  concurrency : nat;
  running : list nat;
  waiting : list nat;
  isPaused : bool;
}.

(** Modelled from the spec: [activeCount], the number of tasks in flight. *)
Definition activeCount (q : Queue) : nat := length (running q).

(** Modelled from the spec: the number of tasks submitted and not yet
    dispatched ([queue.size]). *)
Definition size (q : Queue) : nat := length (waiting q).

(** Modelled from the spec: [waitUntilBelow(n)] lets its caller go on
    once [activeCount < n]. *)
Definition waitUntilBelow (q : Queue) (n : nat) : bool := (activeCount q <? n)%nat.

(** Modelled from the spec: the call [main] makes is [onSizeLessThan(n)],
    which by its name waits on [size], the tasks not yet dispatched,
    rather than on the tasks in flight. *)
Definition onSizeLessThan (q : Queue) (n : nat) : bool := (size q <? n)%nat.

(** Modelled from the spec: the initial state, Idle. *)
Definition new (N : nat) : Queue :=
  {| concurrency := N; running := []; waiting := []; isPaused := false |}.

(** Modelled from the spec: a waiting task is dispatched when the queue
    is not paused and [activeCount < N]; starting it increments
    [activeCount]. *)
Definition tryToStartAnother (q : Queue) : Queue :=
  match waiting q with
  | [] => q
  | t :: rest =>
      if negb (isPaused q) && (activeCount q <? concurrency q)%nat
      then {| concurrency := concurrency q;
              running := running q ++ [t];
              waiting := rest;
              isPaused := isPaused q |}
      else q
  end.

(** Modelled from the spec: [submit(task)]. *)
Definition add (t : nat) (q : Queue) : Queue :=
  tryToStartAnother
    {| concurrency := concurrency q;
       running := running q;
       waiting := waiting q ++ [t];
       isPaused := isPaused q |}.

Fixpoint remove (t : nat) (l : list nat) : list nat :=
  match l with
  | [] => []
  | x :: rest => if (x =? t)%nat then rest else x :: remove t rest
  end.

(** Modelled from the spec: completion of a task in flight, success or
    failure, decrements [activeCount]; the slot goes to a waiting task. *)
Definition next (t : nat) (q : Queue) : Queue :=
  tryToStartAnother
    {| concurrency := concurrency q;
       running := remove t (running q);
       waiting := waiting q;
       isPaused := isPaused q |}.

(** Modelled from the spec: [pause()] stops the dispatch of new tasks;
    tasks in flight are unaffected. *)
Definition pause (q : Queue) : Queue :=
  {| concurrency := concurrency q;
     running := running q;
     waiting := waiting q;
     isPaused := true |}.

Fixpoint dispatch (n : nat) (q : Queue) : Queue :=
  match n with
  | O => q
  | S n' => dispatch n' (tryToStartAnother q)
  end.

(** Modelled from the spec: [resume()] ([start]) dispatches waiting
    tasks again, as many as the capacity allows. *)
Definition start (q : Queue) : Queue :=
  if isPaused q
  then dispatch (size q)
         {| concurrency := concurrency q;
            running := running q;
            waiting := waiting q;
            isPaused := false |}
  else q.

End PQueue.

(** ** migrate-auth0-users *)
Module MigrateUsers.

Import Js.

(** [z.string()] and [z.string().optional()] applied to a property. *)
Definition z_string (v : option json) : option string :=
  match v with
  | Some (JString s) => Some s
  | _ => None
  end.

Definition z_string_optional (v : option json) : option (option string) :=
  match v with
  | None => Some None
  | Some (JString s) => Some (Some s)
  | _ => None
  end.

(** [Auth0ExportedUser.parse(line)] *)
Definition Auth0ExportedUser_parse (line : json) : result Auth0ExportedUser :=
  match line with
  | JObject o =>
      match
        (user_id ← z_string (get "user_id" o);
         email ← z_string (get "email" o);
         name ← z_string (get "name" o);
         family_name ← z_string_optional (get "family_name" o);
         given_name ← z_string_optional (get "given_name" o);
         nickname ← z_string (get "nickname" o);
         picture ← z_string (get "picture" o);
         provider ← z_string (get "provider" o);
         created_at ← z_string (get "created_at" o);
         updated_at ← z_string (get "updated_at" o);
         region ← z_string_optional (get "region" o);
         workos_user_id ← z_string_optional (get "workos_user_id" o);
         Some {| user_id := user_id; email := email;
                 email_verified := get "email_verified" o;
                 name := name; family_name := family_name;
                 given_name := given_name; nickname := nickname;
                 picture := picture; provider := provider;
                 created_at := created_at; updated_at := updated_at;
                 region := region; workos_user_id := workos_user_id |})
      with
      | Some exportedUser => Resolved exportedUser
      | None => Rejected ZodError
      end
  | _ => Rejected ZodError
  end.

(** [v === true || v === "true"] *)
Definition is_true (v : option json) : bool :=
  match v with
  | Some (JBool true) => true
  | Some (JString s) => String.eqb s "true"
  | _ => false
  end.

(** [{ auth0Sub: user_id, ...(region ? { region } : {}) }] *)
Definition metadata (exportedUser : Auth0ExportedUser) : list (string * string) :=
  ("auth0Sub", user_id exportedUser)
    :: (if truthy (region exportedUser)
        then [("region", nullish (region exportedUser) "")]
        else []).

(** What [updateUser] and [findOrCreateUser] resolve with. *)
Record Found := {
  workOsUser : option User;
  created : bool;
}.

Definition update_payload (exportedUser : Auth0ExportedUser) (existingUser : User)
  : UpdateUserOptions :=
  {| uu_userId := id existingUser;
     uu_emailVerified :=
       Some (emailVerified existingUser || is_true (email_verified exportedUser));
     uu_firstName := given_name exportedUser;
     uu_lastName := family_name exportedUser;
     uu_metadata := metadata exportedUser;
     uu_passwordHash := None;
     uu_passwordHashType := None |}.

Definition create_payload (exportedUser : Auth0ExportedUser) : CreateUserOptions :=
  {| cu_email := email exportedUser;
     cu_emailVerified := is_true (email_verified exportedUser);
     cu_firstName := given_name exportedUser;
     cu_lastName := family_name exportedUser;
     cu_metadata := metadata exportedUser |}.

Definition results_file : string := "out/migration-results.jsonl".

Section Worker.

Context {W : Type} (svc : Services W).

(** [String.prototype.toLowerCase], which is the engine's and is left to
    the caller: the worker hands the lowered email to [listUsers] and
    does not look into it. *)
Context (toLowerCase : string -> string).

Definition updateUser (exportedUser : Auth0ExportedUser) (existingUser : User)
  : Promise W Found :=
  let* _ := perform svc (workos_updateUser (update_payload exportedUser existingUser)) in
  ret {| workOsUser := Some existingUser; created := false |}.

(** The [try] block and the [catch] block each end in
    [return updateUser(...)], which hands back the promise without
    awaiting it: the block yields the promise, and the function
    settles with it once the block is left.  So the blocks compute a
    [Promise W Found], and a rejection of that promise is not seen
    by [catch]. *)
Definition findOrCreateUser (exportedUser : Auth0ExportedUser) : Promise W Found :=
  let* returned :=
    try_catch
      (if truthy (workos_user_id exportedUser) then
         let* user := perform svc (workos_getUser (nullish (workos_user_id exportedUser) "")) in
         ret (updateUser exportedUser user)
       else
         let* user := perform svc (workos_createUser (create_payload exportedUser)) in
         ret (ret {| workOsUser := Some user; created := true |}))
      (fun error =>
         if isRateLimitExceededException error then throw error
         else
           let* matchingUsers :=
             perform svc (workos_listUsers (toLowerCase (email exportedUser))) in
           match matchingUsers with
           | [existingUser] => ret (updateUser exportedUser existingUser)
           | _ =>
               do* console_log "Can't migrate user" (Some error) in
               ret (ret {| workOsUser := None; created := false |})
           end)
  in
  returned.

Definition processLine (line : json) (recordNumber : nat) : Promise W bool :=
  match Auth0ExportedUser_parse line with
  | Rejected error =>
      do* console_error ("(" +:+ pretty recordNumber +:+ ") Error parsing user: ")
            (Some error) in
      ret false
  | Resolved exportedUser =>
      let* found := findOrCreateUser exportedUser in
      match workOsUser found with
      | None =>
          do* console_error
                ("(" +:+ pretty recordNumber +:+ ") Could not find or create user "
                   +:+ user_id exportedUser) None in
          ret false
      | Some workOsUser =>
          let* _ :=
            perform svc
              (fs_writeFile_append results_file
                 (LedgerLine {| mr_workos_user_id := id workOsUser;
                                mr_auth0_user_id := user_id exportedUser;
                                mr_created := created found |})) in
          do* console_log
                ("(" +:+ pretty recordNumber +:+ ") "
                   +:+ (if created found then "Imported" else "Updated")
                   +:+ " Auth0 user " +:+ user_id exportedUser
                   +:+ " as WorkOS user " +:+ id workOsUser) None in
          ret true
      end
  end.

End Worker.

Definition DEFAULT_RETRY_AFTER : Z := 60.
Definition MAX_CONCURRENT_USER_IMPORTS : nat := 10.

(** [(error.retryAfter ?? DEFAULT_RETRY_AFTER) + 1] in the handler that
    [enqueueTask] attaches to a task. *)
Definition retryAfter (error_retryAfter : option Z) : Z :=
  (nullish error_retryAfter DEFAULT_RETRY_AFTER + 1)%Z.

(** *** [main]: the ingestion loop and the tasks it enqueues

    [main] is run against a schedule: the order in which the stream
    yields lines, tasks settle and sleeps end is the environment's. *)
Inductive happening :=
  (** [ndjsonStream] yields the next line, [onSizeLessThan] having
      resolved: one turn of the [for await] loop *)
| Line
  (** [processLine] of a task in flight settles *)
| Settles (recordNumber : nat) (outcome : result bool)
  (** the [sleep] of a rate-limit handler ends (whichever handler it is,
      what follows is [queue.start()]) *)
| Wakes.

Record Run := {
  queue : PQueue.Queue;
  (** lines the stream has not yielded yet *)
  unread : nat;
  recordCount : nat;
  completedCount : nat;
  (** the pauses, in seconds, of the handlers that are inside [sleep] *)
  sleeping : list Z;
  (** a rejection no handler took: it ends the process *)
  unhandled : option exn;
}.

Definition with_queue (q : PQueue.Queue) (r : Run) : Run :=
  {| queue := q; unread := unread r; recordCount := recordCount r;
     completedCount := completedCount r; sleeping := sleeping r;
     unhandled := unhandled r |}.

(** [main] up to the loop: [new Queue({ concurrency })], the counters
    at zero.  [concurrency] is [MAX_CONCURRENT_USER_IMPORTS] in [main]. *)
Definition main_init (concurrency M : nat) : Run :=
  {| queue := PQueue.new concurrency; unread := M; recordCount := 0;
     completedCount := 0; sleeping := []; unhandled := None |}.

(** [enqueueTask()]: [queue.add] of the task of record [recordNumber];
    the handlers below are attached to the promise it returns. *)
Definition enqueueTask (recordNumber : nat) (r : Run) : Run :=
  with_queue (PQueue.add recordNumber (queue r)) r.

(** The task's function after [processLine] has resolved. *)
Definition onFulfilled (successful : bool) (r : Run) : Run :=
  {| queue := queue r; unread := unread r; recordCount := recordCount r;
     completedCount := if successful then S (completedCount r) else completedCount r;
     sleeping := sleeping r; unhandled := unhandled r |}.

(** The [catch] handler of [enqueueTask], up to its [await sleep]. *)
Definition onRejected (recordNumber : nat) (error : exn) (r : Run) : Run :=
  match error with
  | RateLimitExceededException error_retryAfter =>
      let r := with_queue (PQueue.pause (queue r)) r in
      let r := enqueueTask recordNumber r in
      {| queue := queue r; unread := unread r; recordCount := recordCount r;
         completedCount := completedCount r;
         sleeping := sleeping r ++ [retryAfter error_retryAfter];
         unhandled := unhandled r |}
  | _ =>
      {| queue := queue r; unread := unread r; recordCount := recordCount r;
         completedCount := completedCount r; sleeping := sleeping r;
         unhandled := Some error |}
  end.

(** One happening; [None] when it cannot take place in [r].  [wait] is
    the reading of [await queue.onSizeLessThan(limit)]: whether the loop
    may go on ([PQueue.onSizeLessThan] or [PQueue.waitUntilBelow]). *)
Definition step (wait : PQueue.Queue -> nat -> bool) (limit skip : nat)
    (r : Run) (h : happening) : option Run :=
  match unhandled r with
  | Some _ => None
  | None =>
      match h with
      | Line =>
          match unread r with
          | O => None
          | S unread' =>
              if wait (queue r) limit then
                let recordNumber := recordCount r in
                let r' := if (skip <=? recordNumber)%nat
                          then enqueueTask recordNumber r else r in
                Some {| queue := queue r'; unread := unread';
                        recordCount := S (recordCount r');
                        completedCount := completedCount r';
                        sleeping := sleeping r'; unhandled := unhandled r' |}
              else None
          end
      | Settles recordNumber outcome =>
          if bool_decide (recordNumber ∈ PQueue.running (queue r)) then
            let r' := with_queue (PQueue.next recordNumber (queue r)) r in
            match outcome with
            | Resolved successful => Some (onFulfilled successful r')
            | Rejected error => Some (onRejected recordNumber error r')
            end
          else None
      | Wakes =>
          match sleeping r with
          | [] => None
          | _ :: rest =>
              Some {| queue := PQueue.start (queue r); unread := unread r;
                      recordCount := recordCount r;
                      completedCount := completedCount r;
                      sleeping := rest; unhandled := unhandled r |}
          end
      end
  end.

Fixpoint run (wait : PQueue.Queue -> nat -> bool) (limit skip : nat)
    (r : Run) (hs : list happening) : option Run :=
  match hs with
  | [] => Some r
  | h :: rest =>
      match step wait limit skip r h with
      | Some r' => run wait limit skip r' rest
      | None => None
      end
  end.

(** The states a migration of [M] records passes through, the queue
    and [onSizeLessThan] both set to [N]. *)
Inductive reachable (wait : PQueue.Queue -> nat -> bool) (N M skip : nat) : Run -> Prop :=
| reachable_init : reachable wait N M skip (main_init N M)
| reachable_step r h r' :
    reachable wait N M skip r -> step wait N skip r h = Some r' ->
    reachable wait N M skip r'.

End MigrateUsers.

(** ** update-auth0-users *)
Module UpdateAuth0Users.

Import Js.

Definition DEFAULT_RETRY_AFTER : Z := 10.
Definition MAX_CONCURRENT_USER_IMPORTS : nat := 10.

Section Worker.

Context {W : Type} (svc : Services W).

(** The [try] block runs through to the final [return true]; the
    [catch] block rethrows or returns [false]. *)
Definition processLine (line : MigrationResult) (recordNumber : nat) : Promise W bool :=
  try_catch
    (let* _ :=
       perform svc
         (auth0_users_update (mr_auth0_user_id line)
            (Meta_workos_user_id (mr_workos_user_id line))) in
     do* console_log
           ("(" +:+ pretty recordNumber +:+ ") Successfully updated user "
              +:+ mr_auth0_user_id line +:+ " with WorkOS ID "
              +:+ mr_workos_user_id line) None in
     ret true)
    (fun error =>
       if isManagementApiError429 error then throw error
       else
         do* console_error
               ("(" +:+ pretty recordNumber +:+ ") Failed to update user "
                  +:+ mr_auth0_user_id line +:+ ":") (Some error) in
         ret false).

End Worker.

(** [(Number(error.headers.get("retry-after")) ?? DEFAULT_RETRY_AFTER) + 1]:
    the left operand of [??] is a number, which is never nullish. *)
Definition retryAfter (StringToNumber : string -> number) (retry_after : option string)
  : number :=
  add (nullish (Some (Number StringToNumber retry_after)) (Num DEFAULT_RETRY_AFTER))
      (Num 1).

End UpdateAuth0Users.

(** ** The password import *)
Module ImportPasswords.

Import Js.

(** One line of the password export, with the fields the worker reads. *)
Record Auth0ExportedUser := {
  _id : string;
  email : string;
  passwordHash : string;
}.

Definition DEFAULT_RETRY_AFTER : Z := 10.
Definition MAX_CONCURRENT_USER_IMPORTS : nat := 10.

Definition password_payload (workOsUserId : string) (exportedUser : Auth0ExportedUser)
  : UpdateUserOptions :=
  {| uu_userId := workOsUserId;
     uu_emailVerified := None;
     uu_firstName := None;
     uu_lastName := None;
     uu_metadata := [];
     uu_passwordHash := Some (passwordHash exportedUser);
     uu_passwordHashType := Some "bcrypt" |}.

Section Worker.

Context {W : Type} (svc : Services W).

(** [String.prototype.toLowerCase], left to the caller as in
    [MigrateUsers]. *)
Context (toLowerCase : string -> string).

Definition updateUserPassword (exportedUser : Auth0ExportedUser)
  : Promise W (option User) :=
  try_catch
    (let userId := "auth0|" +:+ _id exportedUser in
     let* matchingUsers :=
       perform svc (workos_listUsers (toLowerCase (email exportedUser))) in
     match matchingUsers with
     | [matchingUser] =>
         let workOsUserId := id matchingUser in
         let* workOsUser :=
           perform svc (workos_updateUser (password_payload workOsUserId exportedUser)) in
         do* try_catch
               (let* _ :=
                  perform svc (auth0_users_update userId Meta_password_imported_to_workos) in
                ret tt)
               (fun error =>
                  console_error
                    ("Can't update metadata for user " +:+ userId +:+ " with error "
                       +:+ email exportedUser) None) in
         ret (Some workOsUser)
     | _ => ret None
     end)
    (fun error =>
       if isRateLimitExceededException error then throw error
       else ret None).

End Worker.

(** [(error.retryAfter ?? DEFAULT_RETRY_AFTER) + 1] *)
Definition retryAfter (error_retryAfter : option Z) : Z :=
  (nullish error_retryAfter DEFAULT_RETRY_AFTER + 1)%Z.

(** One element of [identifiers]:
    [z.object({ type: z.string(), value: z.string(), verified: z.boolean() })]. *)
Definition z_identifier (v : json) : bool :=
  match v with
  | JObject o =>
      match MigrateUsers.z_string (get "type" o), MigrateUsers.z_string (get "value" o),
            get "verified" o with
      | Some _, Some _, Some (JBool _) => true
      | _, _, _ => false
      end
  | _ => false
  end.

(** [z.array(...)] applied to a property. *)
Definition z_identifiers (v : option json) : option unit :=
  match v with
  | Some (JArray items) => if forallb z_identifier items then Some tt else None
  | _ => None
  end.

(** [Auth0ExportedUser.parse(line)] with the schema of the password
    export.  Every field of the schema is checked ([email_verified] and
    [_tmp_is_unique] are [z.any().optional()], which nothing fails); the
    record keeps the three that the worker reads. *)
Definition Auth0ExportedUser_parse (line : json) : result Auth0ExportedUser :=
  match line with
  | JObject o =>
      match
        (_id ← MigrateUsers.z_string (get "_id" o);
         email ← MigrateUsers.z_string (get "email" o);
         _ ← MigrateUsers.z_string (get "tenant" o);
         _ ← MigrateUsers.z_string (get "connection" o);
         passwordHash ← MigrateUsers.z_string (get "passwordHash" o);
         _ ← MigrateUsers.z_string (get "version" o);
         _ ← z_identifiers (get "identifiers" o);
         Some {| _id := _id; email := email; passwordHash := passwordHash |})
      with
      | Some exportedUser => Resolved exportedUser
      | None => Rejected ZodError
      end
  | _ => Rejected ZodError
  end.

Section Lines.

Context {W : Type} (svc : Services W) (toLowerCase : string -> string).

(** [parse] is not inside a [try]: what it throws rejects the promise
    that [processLine] returns. *)
Definition processLine (line : json) (recordNumber : nat) : Promise W bool :=
  match Auth0ExportedUser_parse line with
  | Rejected error => throw error
  | Resolved exportedUser =>
      let* workOsUser := updateUserPassword svc toLowerCase exportedUser in
      match workOsUser with
      | None =>
          do* console_error
                ("(" +:+ pretty recordNumber +:+ ") Could not find or create user "
                   +:+ _id exportedUser +:+ " for " +:+ email exportedUser) None in
          ret false
      | Some workOsUser =>
          do* console_log
                ("(" +:+ pretty recordNumber +:+ ") Imported Auth0 password user "
                   +:+ _id exportedUser +:+ " for WorkOS user " +:+ id workOsUser) None in
          ret true
      end
  end.

End Lines.

End ImportPasswords.

(** ** identify-auth0-users *)
Module IdentifyUsers.

Import Js.

Definition MAX_CONCURRENT_REQUESTS : nat := 5.

Definition dquote : string := String "034"%char EmptyString.

(** The characters that the regular expression of [getAuth0UsersByEmail]
    matches: the Lucene operators, the double quote among them. *)
Definition lucene_special : list ascii :=
  list_ascii_of_string "+-&|!(){}[]^~*?:\/" ++ list_ascii_of_string dquote.

(** [email.replace(regexp, backslash followed by the match)] *)
Fixpoint escape (s : string) : string :=
  match s with
  | EmptyString => EmptyString
  | String c rest =>
      if bool_decide (c ∈ lucene_special)
      then String "\"%char (String c (escape rest))
      else String c (escape rest)
  end.

Definition query (email : string) : string :=
  "email:" +:+ dquote +:+ escape email +:+ dquote.

(** What [processDuplicateUsers] returns. *)
Record Decision := {
  d_userToKeep : option DuplicateUser;
  d_auth0User : option Auth0User;
  d_action : Action;
  d_reason : string;
  d_requiresManualReview : option bool;
}.

(** [new Map()] filled by [auth0Users.forEach(user => map.set(user.user_id, user))] *)
Definition auth0UserMap (auth0Users : list Auth0User) : gmap string Auth0User :=
  foldl (fun m user => <[a0_user_id user := user]> m) ∅ auth0Users.

Definition has (m : gmap string Auth0User) (k : string) : bool :=
  match m !! k with
  | Some _ => true
  | None => false
  end.

(** [user.auth0Sub && auth0UserMap.has(user.auth0Sub)] *)
Definition existsInAuth0 (m : gmap string Auth0User) (user : DuplicateUser) : bool :=
  truthy (auth0Sub user) && has m (nullish (auth0Sub user) "").

Definition existingUsers (duplicates : list DuplicateUser) (auth0Users : list Auth0User)
  : list DuplicateUser :=
  List.filter (existsInAuth0 (auth0UserMap auth0Users)) duplicates.

(** [auth0UserMap.get(user.auth0Sub!)] *)
Definition get_auth0User (m : gmap string Auth0User) (user : DuplicateUser)
  : option Auth0User :=
  sub ← auth0Sub user; m !! sub.

(** [existingUsers.map(user => ({ user, auth0Data: auth0UserMap.get(user.auth0Sub!)! }))]:
    every user that passed the filter has an entry
    (see [with_auth0Data_existing]). *)
Definition with_auth0Data (m : gmap string Auth0User) (users : list DuplicateUser)
  : list (DuplicateUser * Auth0User) :=
  omap (fun user => auth0Data ← get_auth0User m user; Some (user, auth0Data)) users.

(** [logins_count || 0] *)
Definition logins (a : Auth0User) : Z := nullish (logins_count a) 0%Z.

Section Resolution.

(** [s => new Date(s).getTime()]: milliseconds since the epoch, [NaN]
    for a string that is not a date. *)
Context (getTime : string -> number).

(** The function passed to [sort]. *)
Definition comparefn (a b : DuplicateUser * Auth0User) : number :=
  let loginDiff := (logins (snd b) - logins (snd a))%Z in
  if negb (loginDiff =? 0)%Z then Num loginDiff
  else if truthy (last_login (snd a)) && truthy (last_login (snd b))
  then sub (getTime (nullish (last_login (snd b)) ""))
           (getTime (nullish (last_login (snd a)) ""))
  else Num 0.

Definition sortedUsers (duplicates : list DuplicateUser) (auth0Users : list Auth0User)
  : list (DuplicateUser * Auth0User) :=
  sort comparefn
    (with_auth0Data (auth0UserMap auth0Users) (existingUsers duplicates auth0Users)).

Definition processDuplicateUsers
    (duplicates : list DuplicateUser) (auth0Users : list Auth0User) : Decision :=
  match existingUsers duplicates auth0Users with
  | [] =>
      {| d_userToKeep := None; d_auth0User := None;
         d_action := skip;
         d_reason := "All users deleted from Auth0";
         d_requiresManualReview := None |}
  | [user] =>
      {| d_userToKeep := Some user;
         d_auth0User := get_auth0User (auth0UserMap auth0Users) user;
         d_action := keep;
         d_reason := "Single user exists in Auth0";
         d_requiresManualReview := None |}
  | _ =>
      let sorted := sortedUsers duplicates auth0Users in
      {| d_userToKeep := fst <$> head sorted;
         d_auth0User := snd <$> head sorted;
         d_action := manual_review;
         d_reason :=
           pretty (length (existingUsers duplicates auth0Users))
             +:+ " users exist in Auth0 - manual review required";
         d_requiresManualReview := Some true |}
  end.

End Resolution.

(** The command-line options of [main] ([--rate-limit-threshold] a
    natural number). *)
Record Options := {
  csvFile : string;
  outputFile : string;
  manualReviewFile : string;
  skippedFile : string;
  rateLimitThreshold : nat;
  dryRun : bool;
}.

Definition default_options : Options :=
  {| csvFile := "duplicated_emails.csv";
     outputFile := "out/users_to_keep.jsonl";
     manualReviewFile := "out/manual_review.jsonl";
     skippedFile := "out/skipped_users.jsonl";
     rateLimitThreshold := 3;
     dryRun := false |}.

(** [usersByEmail]: a [Map] keeps its keys in insertion order.  One row
    is added by [if (!has(email)) set(email, []); get(email).push(user)]. *)
Fixpoint push_user (user : DuplicateUser) (m : list (string * list DuplicateUser))
  : list (string * list DuplicateUser) :=
  match m with
  | [] => [(du_email user, [user])]
  | (k, users) :: rest =>
      if String.eqb k (du_email user) then (k, users ++ [user]) :: rest
      else (k, users) :: push_user user rest
  end.

Definition usersByEmail (rows : list DuplicateUser) : list (string * list DuplicateUser) :=
  foldl (fun m user => push_user user m) [] rows.

(** The file a result is appended to. *)
Definition targetFile (o : Options) (result : ProcessingResult) : string :=
  match action result with
  | keep => outputFile o
  | manual_review => manualReviewFile o
  | skip => skippedFile o
  end.

(** [recordCount % rateLimitThreshold === 0]; a remainder by zero is
    [NaN], which is not [0]. *)
Definition at_threshold (recordCount rateLimitThreshold : nat) : bool :=
  match rateLimitThreshold with
  | O => false
  | _ => (recordCount mod rateLimitThreshold =? 0)%nat
  end.

Record Summary := {
  totalEmails : nat;
  actions_keep : nat;
  actions_manual_review : nat;
  actions_skip : nat;
}.

Definition count (a : Action) (results : list ProcessingResult) : nat :=
  length (List.filter (fun r => bool_decide (action r = a)) results).

Definition summary (groups : list (string * list DuplicateUser))
    (results : list ProcessingResult) : Summary :=
  {| totalEmails := length groups;
     actions_keep := count keep results;
     actions_manual_review := count manual_review results;
     actions_skip := count skip results |}.

Section Run.

Context {W : Type} (svc : Services W) (getTime : string -> number).

(** [response.data || []]: an array, even an empty one, is truthy. *)
Definition getAuth0UsersByEmail (email : string) : Promise W (list Auth0User) :=
  try_catch
    (let* response := perform svc (auth0_users_getAll (query email)) in
     ret (nullish response []))
    (fun error =>
       do* console_error ("Failed to fetch Auth0 users for email " +:+ email +:+ ":")
             (Some error) in
       ret []).

Definition processEmailGroup (email : string) (duplicates : list DuplicateUser)
    (recordNumber : nat) : Promise W ProcessingResult :=
  do* console_log
        ("(" +:+ pretty recordNumber +:+ ") Processing "
           +:+ pretty (length duplicates) +:+ " duplicates for " +:+ email) None in
  let* auth0Users := getAuth0UsersByEmail email in
  do* console_log
        ("(" +:+ pretty recordNumber +:+ ") Found "
           +:+ pretty (length auth0Users) +:+ " Auth0 users for " +:+ email) None in
  let d := processDuplicateUsers getTime duplicates auth0Users in
  ret {| pr_email := email;
         duplicates := duplicates;
         auth0Users := auth0Users;
         userToKeep := d_userToKeep d;
         auth0User := d_auth0User d;
         action := d_action d;
         reason := d_reason d;
         requiresManualReview := d_requiresManualReview d |}.

(** What follows [results.push(result)] inside the [try] block. *)
Definition report (o : Options) (email : string) (recordNumber : nat)
    (result : ProcessingResult) : Promise W unit :=
  do* (if negb (dryRun o)
       then perform svc (fs_writeFile_append (targetFile o result) (DecisionLine result))
       else ret tt) in
  do* console_log
        ("(" +:+ pretty recordNumber +:+ ") " +:+ email +:+ ": "
           +:+ match action result with
               | keep => "keep"
               | skip => "skip"
               | manual_review => "manual_review"
               end
           +:+ " - " +:+ reason result) None in
  match userToKeep result with
  | Some user =>
      console_log
        ("(" +:+ pretty recordNumber +:+ ") Selected user: " +:+ sId user
           +:+ " (" +:+ du_username user +:+ ")") None
  | None => ret tt
  end.

(** The function given to [queue.add]; it resolves with the [results]
    array as the task leaves it.  [results.push] changes the array in
    place, so a result pushed stays when a later statement of the
    [try] block throws: the one [catch] block is written out for each
    of the two contents [results] can have when it is entered. *)
Definition task (o : Options) (email : string) (duplicates : list DuplicateUser)
    (recordNumber : nat) (results : list ProcessingResult)
  : Promise W (list ProcessingResult) :=
  let handler (results : list ProcessingResult) (error : exn) :=
    do* console_error
          ("(" +:+ pretty recordNumber +:+ ") Error processing " +:+ email +:+ ":")
          (Some error) in
    ret results in
  try_catch
    (let* result := processEmailGroup email duplicates recordNumber in
     let results := results ++ [result] in
     try_catch
       (do* report o email recordNumber result in ret results)
       (handler results))
    (handler results).

(** The [for] loop of [main] over [usersByEmail.entries()].  Each
    iteration awaits [queue.add(task)], so the queue is empty when
    the next task is added, the task starts at once, and the loop
    goes on when the task has settled. *)
Fixpoint main_loop (o : Options) (entries : list (string * list DuplicateUser))
    (results : list ProcessingResult) (recordCount : nat)
  : Promise W (list ProcessingResult) :=
  match entries with
  | [] => ret results
  | (email, duplicates) :: rest =>
      let recordNumber := recordCount in
      let recordCount := S recordCount in
      let* results := task o email duplicates recordNumber results in
      do* (if at_threshold recordCount (rateLimitThreshold o)
           then sleep (Num 1000)
           else ret tt) in
      main_loop o rest results recordCount
  end.

(** [main], from the rows that [Papa.parse] returned to the summary
    object.  What [main] does around the loop with the file system is
    not part of it: the [fs.mkdir] of the output directories before the
    loop, and the write of the summary file after it. *)
Definition main (o : Options) (rows : list DuplicateUser) : Promise W Summary :=
  let groups := usersByEmail rows in
  let* results := main_loop o groups [] 0 in
  ret (summary groups results).

End Run.

(** The results that the trace shows appended to [path], in order. *)
Definition appended (path : string) (tr : list event) : list ProcessingResult :=
  omap (fun ev =>
          match ev with
          | Called (fs_writeFile_append p (DecisionLine r)) None =>
              if String.eqb p path then Some r else None
          | _ => None
          end) tr.

End IdentifyUsers.

(** ** update-workos-ids *)
Module UpdateWorkosIds.

Import Js.

(** One row of the mapping CSV (every cell is a string; a column the
    row lacks is [undefined]). *)
Record WorkOSMapping := {
  wm_workos_user_id : option string;
  wm_auth0_user_id : option string;
  wm_created : option string;
}.

(** [row.auth0_user_id && row.workos_user_id] *)
Definition complete (row : WorkOSMapping) : bool :=
  truthy (wm_auth0_user_id row) && truthy (wm_workos_user_id row).

(** [loadWorkOSMappings], from the rows that [Papa.parse] returned
    without an error to the map [auth0_user_id -> workos_user_id]. *)
Definition loadWorkOSMappings (rows : list WorkOSMapping) : gmap string string :=
  foldl (fun mappings row =>
           if complete row
           then <[nullish (wm_auth0_user_id row) "" := nullish (wm_workos_user_id row) ""]>
                  mappings
           else mappings)
    ∅ rows.

(** [id.replace(/,/g, '')] *)
Fixpoint remove_commas (s : string) : string :=
  match s with
  | EmptyString => EmptyString
  | String c rest =>
      if Ascii.eqb c ","%char then remove_commas rest else String c (remove_commas rest)
  end.

Section Statements.

(** [s => parseInt(s, 10)], an integer or [NaN], and the text of an
    integer inside a template literal: both are left to the caller. *)
Context (parseInt : string -> number) (toString : Z -> string).

Definition idClause (id : string) : string :=
  match parseInt (remove_commas id) with
  | Num numericId => "id = " +:+ toString numericId
  | NaN => "id = '" +:+ id +:+ "'"
  end.

(** The template literal of [generateSQLUpdate]. *)
Definition sql (workOSUserId : string) (userToKeep : DuplicateUser) : string :=
  "UPDATE users SET " +:+ IdentifyUsers.dquote +:+ "workOSUserId" +:+ IdentifyUsers.dquote
    +:+ " = '" +:+ workOSUserId +:+ "' WHERE " +:+ idClause (du_id userToKeep)
    +:+ " AND email = '" +:+ du_email userToKeep +:+ "';".

(** The value that [generateSQLUpdate] returns ([None] is [null]); what
    it prints on the console is left out. *)
Definition generateSQLUpdate (result : ProcessingResult)
    (workOSMappings : gmap string string) : option string :=
  match userToKeep result, auth0User result with
  | Some userToKeep, Some auth0User =>
      let workOSUserId := workOSMappings !! a0_user_id auth0User in
      if negb (truthy workOSUserId) then None
      else Some (sql (nullish workOSUserId "") userToKeep)
  | _, _ => None
  end.

(** The variables that the loop of [main] updates. *)
Record Progress := {
  sqlStatements : list string;
  processedCount : nat;
  sqlGeneratedCount : nat;
}.

(** [main] before the loop; [generatedOn] is [new Date().toISOString()]. *)
Definition main_init (generatedOn : string) : Progress :=
  {| sqlStatements :=
       ["-- SQL UPDATE statements to set workOSUserId for duplicate users";
        "-- Generated by update-workos-ids tool";
        "-- Generated on: " +:+ generatedOn;
        ""];
     processedCount := 0;
     sqlGeneratedCount := 0 |}.

(** One turn of the [for await] loop, for a result that [readUsersToKeep]
    yields. *)
Definition main_step (workOSMappings : gmap string string) (p : Progress)
    (result : ProcessingResult) : Progress :=
  let processedCount := S (processedCount p) in
  if bool_decide (action result = keep)
     && bool_decide (is_Some (userToKeep result))
     && bool_decide (is_Some (auth0User result))
  then
    let sqlStatement := generateSQLUpdate result workOSMappings in
    if truthy sqlStatement
    then {| sqlStatements := sqlStatements p ++ [nullish sqlStatement ""];
            processedCount := processedCount;
            sqlGeneratedCount := S (sqlGeneratedCount p) |}
    else {| sqlStatements := sqlStatements p;
            processedCount := processedCount;
            sqlGeneratedCount := sqlGeneratedCount p |}
  else {| sqlStatements := sqlStatements p;
          processedCount := processedCount;
          sqlGeneratedCount := sqlGeneratedCount p |}.

(** [main] from the rows of the mapping file and the results of the
    users file to the statements and the counts of the summary. *)
Definition main (rows : list WorkOSMapping) (results : list ProcessingResult)
    (generatedOn : string) : Progress :=
  foldl (main_step (loadWorkOSMappings rows)) (main_init generatedOn) results.

End Statements.

End UpdateWorkosIds.

(** * Vocabulary of the properties *)

(** A run that starts in world [w], with nothing traced yet. *)
Definition fresh {W : Type} (w : W) : state W := {| world := w; trace := [] |}.

(** [x] may stand before [y] in an array sorted by [comparefn]. *)
Definition before {A : Type} (comparefn : A -> A -> Js.number) (x y : A) : Prop :=
  (Js.sign (comparefn x y) <= 0)%Z.

(** The survivors paired with their Auth0 record, in input order: what
    [processDuplicateUsers] sorts. *)
Definition paired (duplicates : list DuplicateUser) (auth0Users : list Auth0User)
  : list (DuplicateUser * Auth0User) :=
  IdentifyUsers.with_auth0Data (IdentifyUsers.auth0UserMap auth0Users)
    (IdentifyUsers.existingUsers duplicates auth0Users).

(** The last login of an account as the comparison reads it: present when
    [last_login] is a non-empty string that [Date] can read. *)
Definition time_of (getTime : string -> Js.number) (a : Auth0User) : option Z :=
  if Js.truthy (last_login a)
  then match getTime (Js.nullish (last_login a) "") with
       | Js.Num t => Some t
       | Js.NaN => None
       end
  else None.

(** [x] outranks [y]: more logins, or as many and a later last login, both
    accounts having one. *)
Definition outranks (getTime : string -> Js.number)
    (x y : DuplicateUser * Auth0User) : Prop :=
  (IdentifyUsers.logins (snd y) < IdentifyUsers.logins (snd x))%Z
  \/ (IdentifyUsers.logins (snd x) = IdentifyUsers.logins (snd y)
      /\ exists tx ty,
           time_of getTime (snd x) = Some tx /\ time_of getTime (snd y) = Some ty
           /\ (ty < tx)%Z).

(** The comparison orders the survivors consistently: not being outranked
    is transitive among them. *)
Definition consistent (getTime : string -> Js.number)
    (survivors : list (DuplicateUser * Auth0User)) : Prop :=
  forall x y z, x ∈ survivors -> y ∈ survivors -> z ∈ survivors ->
    ~ outranks getTime y x -> ~ outranks getTime z y -> ~ outranks getTime z x.

(** What [findOrCreateUser] does once its first call has failed with
    [error]: the [catch] block, started in world [w] after the events [sofar]. *)
Definition fallback {W : Type} (svc : Services W) (toLowerCase : string -> string)
    (exportedUser : Auth0ExportedUser) (error : exn) (w : W) (sofar : list event)
  : result MigrateUsers.Found * state W :=
  match error with
  | RateLimitExceededException _ => (Rejected error, {| world := w; trace := sofar |})
  | _ =>
      let search := workos_listUsers (toLowerCase (email exportedUser)) in
      match svc search w with
      | (Rejected e, w1) =>
          (Rejected e, {| world := w1; trace := sofar ++ [Called search (Some e)] |})
      | (Resolved [existingUser], w1) =>
          let update :=
            workos_updateUser (MigrateUsers.update_payload exportedUser existingUser) in
          match svc update w1 with
          | (r, w2) =>
              (match r with
               | Resolved _ =>
                   Resolved {| MigrateUsers.workOsUser := Some existingUser;
                               MigrateUsers.created := false |}
               | Rejected e => Rejected e
               end,
               {| world := w2;
                  trace := sofar ++ [Called search None; Called update (failure_of r)] |})
          end
      | (Resolved _, w1) =>
          (Resolved {| MigrateUsers.workOsUser := None; MigrateUsers.created := false |},
           {| world := w1;
              trace := sofar ++ [Called search None;
                                  Console stdout "Can't migrate user" (Some error)] |})
      end
  end.

(** The calls that go to WorkOS. *)
Definition is_workos (c : call) : bool :=
  match c with
  | workos_getUser _ | workos_createUser _ | workos_updateUser _ | workos_listUsers _ => true
  | _ => false
  end.

(** The invariant of the dispatcher: no more tasks in flight than
    [concurrency]. *)
Definition within_capacity (q : PQueue.Queue) : Prop :=
  PQueue.activeCount q <= PQueue.concurrency q.

(** The lines that the trace shows appended to the result ledger. *)
Definition ledger (tr : list event) : list MigrationResult :=
  omap (fun ev =>
          match ev with
          | Called (fs_writeFile_append _ (LedgerLine r)) None => Some r
          | _ => None
          end) tr.

(** Every append to a file succeeds. *)
Definition writes_succeed {W : Type} (svc : Services W) : Prop :=
  forall path data (w : W), fst (svc (fs_writeFile_append path data) w) = Resolved tt.

(** [usersByEmail.get(k)] on the list of the map's entries. *)
Fixpoint group_of (k : string) (m : list (string * list DuplicateUser))
  : option (list DuplicateUser) :=
  match m with
  | [] => None
  | (k', users) :: rest => if String.eqb k' k then Some users else group_of k rest
  end.

(** The rows of the CSV file that have email [k], in the order of the file. *)
Definition rows_of (k : string) (rows : list DuplicateUser) : list DuplicateUser :=
  List.filter (fun u => String.eqb (du_email u) k) rows.

(** The distinct elements of a list, in the order in which they first occur. *)
Definition first_seen (l : list string) : list string :=
  foldl (fun seen k => if bool_decide (k ∈ seen) then seen else seen ++ [k]) [] l.

(** The calls that the trace shows, in order. *)
Definition calls (tr : list event) : list call :=
  omap (fun ev =>
          match ev with
          | Called c _ => Some c
          | _ => None
          end) tr.

(** The pauses that the trace shows, in order. *)
Definition sleeps (tr : list event) : list Js.number :=
  omap (fun ev =>
          match ev with
          | Slept ms => Some ms
          | _ => None
          end) tr.

(** The calls that the loop of identify-auth0-users makes for a group
    whose result is [r]: the query, and the append unless the run is dry. *)
Definition calls_of_result (o : IdentifyUsers.Options) (r : ProcessingResult) : list call :=
  auth0_users_getAll (IdentifyUsers.query (pr_email r))
    :: (if IdentifyUsers.dryRun o then []
        else [fs_writeFile_append (IdentifyUsers.targetFile o r) (DecisionLine r)]).

(** Reading an escaped string back: a backslash stands for the character
    that follows it. *)
Fixpoint unescape (s : string) : string :=
  match s with
  | EmptyString => EmptyString
  | String c rest =>
      if Ascii.eqb c "\"%char then
        match rest with
        | EmptyString => EmptyString
        | String c' rest' => String c' (unescape rest')
        end
      else String c (unescape rest)
  end.

(** No Lucene operator of [s] stands bare: each one follows a backslash
    that escapes it. *)
Fixpoint protected (s : string) : bool :=
  match s with
  | EmptyString => true
  | String c rest =>
      if Ascii.eqb c "\"%char then
        match rest with
        | EmptyString => false
        | String _ rest' => protected rest'
        end
      else negb (bool_decide (c ∈ IdentifyUsers.lucene_special)) && protected rest
  end.

(** The calls that the trace shows to have succeeded, in order. *)
Definition successes (tr : list event) : list call :=
  omap (fun ev =>
          match ev with
          | Called c None => Some c
          | _ => None
          end) tr.

(** The calls that change a WorkOS user. *)
Definition changes_workos (c : call) : bool :=
  match c with
  | workos_createUser _ | workos_updateUser _ => true
  | _ => false
  end.

(** The statement that [main] generates for a result, if any: the result
    says [keep], names the user kept and its Auth0 account, and the
    mappings know the account. *)
Definition statement_for (parseInt : string -> Js.number) (toString : Z -> string)
    (mappings : gmap string string) (result : ProcessingResult)
  : option string :=
  if bool_decide (action result = keep)
  then userToKeep ← userToKeep result;
       auth0User ← auth0User result;
       workOSUserId ← mappings !! a0_user_id auth0User;
       Some (UpdateWorkosIds.sql parseInt toString workOSUserId userToKeep)
  else None.


(** The tasks that the queue holds, in flight or waiting, each named by
    its record number. *)
Definition tasks (q : PQueue.Queue) : list nat := PQueue.running q ++ PQueue.waiting q.

(** The result [r] of a group carries the decision of
    [processDuplicateUsers] on the candidates and the accounts it lists. *)
Definition decided (getTime : string -> Js.number) (r : ProcessingResult) : Prop :=
  let d := IdentifyUsers.processDuplicateUsers getTime (duplicates r) (auth0Users r) in
  userToKeep r = IdentifyUsers.d_userToKeep d
  /\ auth0User r = IdentifyUsers.d_auth0User d
  /\ action r = IdentifyUsers.d_action d
  /\ reason r = IdentifyUsers.d_reason d
  /\ requiresManualReview r = IdentifyUsers.d_requiresManualReview d.


(** * Sample data for the examples *)

(** [String.prototype.toLowerCase] on the strings of the examples, which
    hold ASCII characters only: there it lowers the letters ['A'..'Z']
    and leaves every other character as it is. *)
Definition lower_ascii (c : ascii) : ascii :=
  let n := nat_of_ascii c in
  if (65 <=? n)%nat && (n <=? 90)%nat then ascii_of_nat (n + 32) else c.

Fixpoint toLowerCase_ascii (s : string) : string :=
  match s with
  | EmptyString => EmptyString
  | String c rest => String (lower_ascii c) (toLowerCase_ascii rest)
  end.

Definition ada : User :=
  {| id := "user_01ADA"; user_email := "ada@example.com"; emailVerified := false |}.

Definition grace : User :=
  {| id := "user_01GRACE"; user_email := "grace@example.com"; emailVerified := true |}.

(** An exported user without a WorkOS id. *)
Definition line_ada : Js.json :=
  Js.JObject
    [("user_id", Js.JString "auth0|ada"); ("email", Js.JString "Ada@Example.com");
     ("email_verified", Js.JBool true); ("name", Js.JString "Ada Lovelace");
     ("nickname", Js.JString "ada"); ("picture", Js.JString "https://example.com/ada.png");
     ("provider", Js.JString "auth0"); ("created_at", Js.JString "2023-05-01T10:00:00.000Z");
     ("updated_at", Js.JString "2024-02-01T10:00:00.000Z")].

Definition exported_ada : Auth0ExportedUser :=
  {| user_id := "auth0|ada"; email := "Ada@Example.com";
     email_verified := Some (Js.JBool true); name := "Ada Lovelace";
     family_name := None; given_name := None; nickname := "ada";
     picture := "https://example.com/ada.png"; provider := "auth0";
     created_at := "2023-05-01T10:00:00.000Z"; updated_at := "2024-02-01T10:00:00.000Z";
     region := None; workos_user_id := None |}.

(** An exported user that already has a WorkOS id. *)
Definition line_grace : Js.json :=
  Js.JObject
    [("user_id", Js.JString "auth0|grace"); ("email", Js.JString "Grace@Example.com");
     ("name", Js.JString "Grace Hopper"); ("given_name", Js.JString "Grace");
     ("nickname", Js.JString "grace");
     ("picture", Js.JString "https://example.com/grace.png");
     ("provider", Js.JString "google-oauth2");
     ("created_at", Js.JString "2023-06-01T10:00:00.000Z");
     ("updated_at", Js.JString "2024-03-01T10:00:00.000Z");
     ("region", Js.JString "europe-west1");
     ("workos_user_id", Js.JString "user_01GRACE")].

Definition exported_grace : Auth0ExportedUser :=
  {| user_id := "auth0|grace"; email := "Grace@Example.com";
     email_verified := None; name := "Grace Hopper";
     family_name := None; given_name := Some "Grace"; nickname := "grace";
     picture := "https://example.com/grace.png"; provider := "google-oauth2";
     created_at := "2023-06-01T10:00:00.000Z"; updated_at := "2024-03-01T10:00:00.000Z";
     region := Some "europe-west1"; workos_user_id := Some "user_01GRACE" |}.

(** An environment without state that gives one answer per kind of call. *)
Definition answers (fetch create update : result User) (search : result (list User))
    (auth0 : result unit) (accounts : result (option (list Auth0User)))
    (write : result unit) : Services unit :=
  fun c w =>
    match c return result (response c) * unit with
    | workos_getUser _ => (fetch, w)
    | workos_createUser _ => (create, w)
    | workos_updateUser _ => (update, w)
    | workos_listUsers _ => (search, w)
    | auth0_users_update _ _ => (auth0, w)
    | auth0_users_getAll _ => (accounts, w)
    | fs_writeFile_append _ _ => (write, w)
    end.

Definition conflict : exn := OtherError "A user with this email already exists".
Definition unprocessable : exn := OtherError "Unprocessable entity".
Definition not_found : exn := OtherError "User not found".



(** Grace can be fetched. *)
Definition grace_exists : Services unit :=
  answers (Resolved grace) (Rejected conflict) (Resolved grace) (Resolved [grace])
    (Resolved tt) (Resolved (Some [])) (Resolved tt).

(** Grace can be fetched and found by email, but not updated. *)
Definition grace_cannot_be_updated : Services unit :=
  answers (Resolved grace) (Rejected conflict) (Rejected unprocessable) (Resolved [grace])
    (Resolved tt) (Resolved (Some [])) (Resolved tt).

(** The id stored for Grace is unknown to WorkOS, her email is known. *)
Definition grace_id_is_stale : Services unit :=
  answers (Rejected not_found) (Rejected conflict) (Resolved grace) (Resolved [grace])
    (Resolved tt) (Resolved (Some [])) (Resolved tt).

(** Auth0 throttles the metadata update. *)
Definition auth0_throttles : Services unit :=
  answers (Resolved ada) (Resolved ada) (Resolved ada) (Resolved [ada])
    (Rejected (ManagementApiError 429 (Some "30"))) (Resolved (Some [])) (Resolved tt).

(** WorkOS refuses the creation and throttles the search that follows. *)
Definition workos_throttles_search : Services unit :=
  answers (Rejected not_found) (Rejected conflict) (Resolved ada)
    (Rejected (RateLimitExceededException (Some 2%Z)))
    (Resolved tt) (Resolved (Some [])) (Resolved tt).

(** WorkOS throttles the update. *)
Definition workos_throttles_update : Services unit :=
  answers (Resolved grace) (Rejected conflict)
    (Rejected (RateLimitExceededException None)) (Resolved [ada])
    (Resolved tt) (Resolved (Some [])) (Resolved tt).

(** Every call fails. *)
Definition offline : Services unit :=
  fun c w => (Rejected (OtherError "connect ECONNREFUSED"), w).

(** A WorkOS directory that remembers its users: emails are unique, ids
    are handed out in order. *)
Definition directory : Services (list User) :=
  fun c users =>
    let find uid := List.find (fun u => String.eqb (id u) uid) users in
    match c return result (response c) * list User with
    | workos_getUser uid =>
        (match find uid with
         | Some u => Resolved u
         | None => Rejected not_found
         end, users)
    | workos_createUser payload =>
        let email := toLowerCase_ascii (cu_email payload) in
        if existsb (fun u => String.eqb (user_email u) email) users
        then (Rejected conflict, users)
        else
          let u := {| id := "user_" +:+ pretty (length users); user_email := email;
                      emailVerified := cu_emailVerified payload |} in
          (Resolved u, users ++ [u])
    | workos_updateUser payload =>
        match find (uu_userId payload) with
        | Some u =>
            let u' := {| id := id u; user_email := user_email u;
                         emailVerified :=
                           Js.nullish (uu_emailVerified payload) (emailVerified u) |} in
            (Resolved u', map (fun v => if String.eqb (id v) (id u) then u' else v) users)
        | None => (Rejected not_found, users)
        end
    | workos_listUsers email =>
        (Resolved (List.filter (fun u => String.eqb (user_email u) email) users), users)
    | auth0_users_update _ _ => (Resolved tt, users)
    | auth0_users_getAll _ => (Resolved (Some []), users)
    | fs_writeFile_append _ _ => (Resolved tt, users)
    end.

(** A disk that is full. *)
Definition disk_full : Services unit :=
  fun c w =>
    match c return result (response c) * unit with
    | auth0_users_getAll _ => (Resolved (Some []), w)
    | _ => (Rejected (OtherError "ENOSPC: no space left on device"), w)
    end.

(** One path given for two of the three files. *)
Definition one_path_twice : IdentifyUsers.Options :=
  {| IdentifyUsers.csvFile := "duplicated_emails.csv";
     IdentifyUsers.outputFile := "out/decisions.jsonl";
     IdentifyUsers.manualReviewFile := "out/decisions.jsonl";
     IdentifyUsers.skippedFile := "out/skipped_users.jsonl";
     IdentifyUsers.rateLimitThreshold := 3;
     IdentifyUsers.dryRun := false |}.

Definition password_ada : ImportPasswords.Auth0ExportedUser :=
  {| ImportPasswords._id := "ada"; ImportPasswords.email := "Ada@Example.com";
     ImportPasswords.passwordHash := "$2b$10$abcdefghijklmnopqrstuv" |}.

Definition candidate (sId : string) (sub : option string) : DuplicateUser :=
  {| du_username := sId; du_email := "a@x.com"; du_name := sId;
     du_createdAt := "2023-01-01 00:00:00"; du_updatedAt := "2024-01-01 00:00:00";
     du_isDustSuperUser := false; auth0Sub := sub; sId := sId; du_id := "57,027";
     workOSUserId := None |}.

Definition account (user_id : string) (logins : option Z) (last : option string)
  : Auth0User :=
  {| a0_user_id := user_id; a0_email := "a@x.com"; last_login := last; last_ip := None;
     logins_count := logins; a0_created_at := "2023-01-01T00:00:00.000Z";
     a0_updated_at := "2024-01-01T00:00:00.000Z" |}.

(** [Date] on the two instants the examples use. *)
Definition clock (s : string) : Js.number :=
  if String.eqb s "2025-03-01T12:00:00.000Z" then Js.Num 1740830400000
  else if String.eqb s "2024-11-20T09:15:00.000Z" then Js.Num 1732094100000
  else Js.NaN.

Definition u1 : DuplicateUser := candidate "u1" (Some "google-oauth2|1").
Definition u2 : DuplicateUser := candidate "u2" (Some "auth0|2").
Definition u3 : DuplicateUser := candidate "u3" (Some "github|3").

(** Two accounts of Auth0, with 5 and 10 logins. *)
Definition accounts_5_10 : list Auth0User :=
  [account "google-oauth2|1" (Some 5%Z) (Some "2025-03-01T12:00:00.000Z");
   account "auth0|2" (Some 10%Z) (Some "2024-11-20T09:15:00.000Z")].

Definition candidate_of (email sId : string) (sub : option string) : DuplicateUser :=
  {| du_username := sId; du_email := email; du_name := sId;
     du_createdAt := "2023-01-01 00:00:00"; du_updatedAt := "2024-01-01 00:00:00";
     du_isDustSuperUser := false; auth0Sub := sub; sId := sId; du_id := "12";
     workOSUserId := None |}.

Definition v1 : DuplicateUser := candidate_of "b@x.com" "v1" (Some "auth0|b").
Definition v2 : DuplicateUser := candidate_of "b@x.com" "v2" (Some "auth0|gone").
Definition x1 : DuplicateUser := candidate_of "c@x.com" "x1" (Some "auth0|c1").
Definition x2 : DuplicateUser := candidate_of "c@x.com" "x2" None.

(** The rows of the CSV file, the groups interleaved. *)
Definition rows : list DuplicateUser := [u1; v1; u2; x1; v2; u3; x2].

(** An Auth0 tenant with two accounts under a@x.com and one under
    b@x.com, whose query for c@x.com times out; appends succeed. *)
Definition tenant : Services unit :=
  fun c w =>
    match c return result (response c) * unit with
    | auth0_users_getAll q =>
        (if String.eqb q (IdentifyUsers.query "a@x.com")
         then Resolved (Some accounts_5_10)
         else if String.eqb q (IdentifyUsers.query "b@x.com")
         then Resolved (Some [account "auth0|b" (Some 2%Z) None])
         else Rejected (OtherError "timeout"), w)
    | fs_writeFile_append _ _ => (Resolved tt, w)
    | _ => (Rejected (OtherError "not part of this script"), w)
    end.

Definition dry_run : IdentifyUsers.Options :=
  {| IdentifyUsers.csvFile := "duplicated_emails.csv";
     IdentifyUsers.outputFile := "out/users_to_keep.jsonl";
     IdentifyUsers.manualReviewFile := "out/manual_review.jsonl";
     IdentifyUsers.skippedFile := "out/skipped_users.jsonl";
     IdentifyUsers.rateLimitThreshold := 3;
     IdentifyUsers.dryRun := true |}.

(** Ten records through a queue of three: four lines are read and the
    fourth record waits; record 0 is imported and record 3 takes its slot;
    record 1 is rate limited, which pauses the queue and enqueues it
    again; a fifth line is read; the pause ends and record 1 is dispatched. *)
Definition schedule : list MigrateUsers.happening :=
  [MigrateUsers.Line; MigrateUsers.Line; MigrateUsers.Line; MigrateUsers.Line;
   MigrateUsers.Settles 0 (Resolved true);
   MigrateUsers.Settles 1 (Rejected (RateLimitExceededException (Some 5%Z)));
   MigrateUsers.Line;
   MigrateUsers.Wakes].

Definition after_schedule : MigrateUsers.Run :=
  {| MigrateUsers.queue :=
       {| PQueue.concurrency := 3; PQueue.running := [2; 3; 1];
          PQueue.waiting := [4]; PQueue.isPaused := false |};
     MigrateUsers.unread := 5; MigrateUsers.recordCount := 5;
     MigrateUsers.completedCount := 1; MigrateUsers.sleeping := [];
     MigrateUsers.unhandled := None |}.

(** Three records through a queue of three, the second being rate
    limited: the queue is paused, the record waits again, and its
    handler sleeps for the default pause. *)
Definition throttled_schedule : list MigrateUsers.happening :=
  [MigrateUsers.Line; MigrateUsers.Line; MigrateUsers.Line;
   MigrateUsers.Settles 1 (Rejected (RateLimitExceededException None))].

Definition after_throttled_schedule : MigrateUsers.Run :=
  {| MigrateUsers.queue :=
       {| PQueue.concurrency := 3; PQueue.running := [0; 2];
          PQueue.waiting := [1]; PQueue.isPaused := true |};
     MigrateUsers.unread := 7; MigrateUsers.recordCount := 3;
     MigrateUsers.completedCount := 0; MigrateUsers.sleeping := [61%Z];
     MigrateUsers.unhandled := None |}.

(** * Properties *)

(** ** Retry delays *)

Lemma migrate_retryAfter_absent :
  MigrateUsers.retryAfter None = (MigrateUsers.DEFAULT_RETRY_AFTER + 1)%Z.
Proof. reflexivity. Qed.

Lemma migrate_retryAfter_present (seconds : Z) :
  MigrateUsers.retryAfter (Some seconds) = (seconds + 1)%Z.
Proof. reflexivity. Qed.

Lemma passwords_retryAfter_absent :
  ImportPasswords.retryAfter None = (ImportPasswords.DEFAULT_RETRY_AFTER + 1)%Z.
Proof. reflexivity. Qed.

Lemma update_auth0_retryAfter_present StringToNumber (header : string) :
  UpdateAuth0Users.retryAfter StringToNumber (Some header)
  = Js.add (StringToNumber header) (Js.Num 1).
Proof. reflexivity. Qed.

(** C1 (the code departs from it): in update-auth0-users a rate-limit
    error whose response has no retry-after header pauses the queue for
    one second, not for the default of ten seconds plus one: [Number(null)]
    is [0], which [??] keeps. *)
Theorem C1_update_auth0_retryAfter_without_header (StringToNumber : string -> Js.number) :
  UpdateAuth0Users.retryAfter StringToNumber None = Js.Num 1
  /\ Js.Num 1 <> Js.Num (UpdateAuth0Users.DEFAULT_RETRY_AFTER + 1).
Proof. split; [reflexivity | discriminate]. Qed.

(** ** Sorting *)
Section SortFacts.

Context {A : Type} (comparefn : A -> A -> Js.number).

Lemma insert_Permutation x l : Js.insert comparefn x l ≡ₚ x :: l.
Proof.
  induction l as [|y l IH]; simpl; [done|].
  case_match; [done|]. rewrite IH. apply Permutation_swap.
Qed.

Lemma sort_Permutation l : Js.sort comparefn l ≡ₚ l.
Proof.
  induction l as [|x l IH]; simpl; [done|].
  rewrite insert_Permutation. by rewrite IH.
Qed.

Lemma sort_length l : length (Js.sort comparefn l) = length l.
Proof. by rewrite sort_Permutation. Qed.



End SortFacts.

Section SortKey.

Context {A : Type} (comparefn : A -> A -> Js.number) (key : A -> Z).


End SortKey.

(** ** Sorting: the outcomes that the standard permits *)
Section SortPermitted.

Context {A : Type} (comparefn : A -> A -> Js.number).






Section Consistent.

Context (l : list A).
Hypothesis antisym :
  forall x y, Js.sign (comparefn x y) = (- Js.sign (comparefn y x))%Z.
Hypothesis trans :
  forall x y z, x ∈ l -> y ∈ l -> z ∈ l ->
    before comparefn x y -> before comparefn y z -> before comparefn x z.





End Consistent.


End SortPermitted.

(** ** identify-auth0-users: the lookup map and the survivors *)
Section IdentifyFacts.

Import IdentifyUsers.

Lemma foldl_set_lookup (l : list Auth0User) (m : gmap string Auth0User) k a :
  foldl (fun m user => <[a0_user_id user := user]> m) m l !! k = Some a ->
  (a ∈ l /\ a0_user_id a = k) \/ m !! k = Some a.
Proof.
  revert m. induction l as [|x l IH]; intros m; simpl; [by right|].
  intros H. destruct (IH _ H) as [[Hin Hk]|Hm].
  - left. split; [apply elem_of_cons; by right|done].
  - destruct (decide (a0_user_id x = k)) as [Heq|Hne].
    + rewrite Heq in Hm. rewrite lookup_insert_eq in Hm. injection Hm as <-.
      left. split; [apply elem_of_cons; by left|done].
    + rewrite lookup_insert_ne in Hm by done. by right.
Qed.

Lemma foldl_set_is_Some (l : list Auth0User) (m : gmap string Auth0User) k :
  is_Some (m !! k) \/ (exists a, a ∈ l /\ a0_user_id a = k) ->
  is_Some (foldl (fun m user => <[a0_user_id user := user]> m) m l !! k).
Proof.
  revert m. induction l as [|x l IH]; intros m; simpl.
  - intros [H|(a & Ha & _)]; [done|inversion Ha].
  - intros H. apply IH.
    destruct (decide (a0_user_id x = k)) as [Heq|Hne].
    + left. rewrite Heq, lookup_insert_eq. by eexists.
    + rewrite lookup_insert_ne by done.
      destruct H as [H|(a & Ha & Hk)]; [by left|].
      apply elem_of_cons in Ha as [->|Ha]; [done|]. right. by exists a.
Qed.

(** An entry of the map is an account of the list, under its own id. *)
Lemma auth0UserMap_lookup auth0Users k a :
  auth0UserMap auth0Users !! k = Some a -> a ∈ auth0Users /\ a0_user_id a = k.
Proof.
  intros H. destruct (foldl_set_lookup _ _ _ _ H) as [?|Hm]; [done|].
  by rewrite lookup_empty in Hm.
Qed.

Lemma auth0UserMap_has auth0Users k :
  has (auth0UserMap auth0Users) k = true
  <-> exists a, a ∈ auth0Users /\ a0_user_id a = k.
Proof.
  unfold has. split.
  - destruct (auth0UserMap auth0Users !! k) as [a|] eqn:E; [|done].
    intros _. exists a. by apply auth0UserMap_lookup.
  - intros H.
    destruct (foldl_set_is_Some auth0Users ∅ k (or_intror H)) as [a Ha].
    unfold auth0UserMap. by rewrite Ha.
Qed.

Lemma truthy_Some s : Js.truthy s = true -> exists v, s = Some v /\ v <> "".
Proof. destruct s as [[|c v]|]; simpl; try done. intros _. by eexists. Qed.

(** The survivors: the candidates whose [auth0Sub] is a non-empty string
    that is the [user_id] of an account Auth0 returned. *)
Lemma existingUsers_spec duplicates auth0Users user :
  user ∈ existingUsers duplicates auth0Users
  <-> user ∈ duplicates
      /\ exists sub a, auth0Sub user = Some sub /\ sub <> ""
                       /\ a ∈ auth0Users /\ a0_user_id a = sub.
Proof.
  unfold existingUsers. rewrite list_elem_of_In, filter_In, <- list_elem_of_In.
  unfold existsInAuth0. rewrite andb_true_iff, auth0UserMap_has.
  split.
  - intros (Hin & Ht & a & Ha & Hk). split; [done|].
    destruct (truthy_Some _ Ht) as (sub & Hs & Hne). rewrite Hs in Hk. simpl in Hk.
    by exists sub, a.
  - intros (Hin & sub & a & Hs & Hne & Ha & Hk). split; [done|].
    rewrite Hs. simpl. split; [by destruct sub|by exists a].
Qed.

Lemma existsInAuth0_get m user :
  existsInAuth0 m user = true -> is_Some (get_auth0User m user).
Proof.
  unfold existsInAuth0, get_auth0User, has. intros [Ht Hh]%andb_true_iff.
  destruct (truthy_Some _ Ht) as (sub & Hs & _). rewrite Hs in *. simpl in *.
  destruct (m !! sub); [by eexists|done].
Qed.

(** Pairing the survivors with their Auth0 record loses no survivor. *)
Lemma with_auth0Data_existing m (users : list DuplicateUser) :
  fst <$> with_auth0Data m (List.filter (existsInAuth0 m) users)
  = List.filter (existsInAuth0 m) users.
Proof.
  induction users as [|u users IH]; simpl; [done|].
  destruct (existsInAuth0 m u) eqn:E; [|done].
  destruct (existsInAuth0_get _ _ E) as [a Ha].
  unfold with_auth0Data in *. simpl. rewrite Ha. simpl. f_equal. exact IH.
Qed.

Lemma with_auth0Data_elem m (users : list DuplicateUser) user a :
  (user, a) ∈ with_auth0Data m users -> user ∈ users /\ get_auth0User m user = Some a.
Proof.
  unfold with_auth0Data. rewrite list_elem_of_omap.
  intros (u & Hu & Hf). destruct (get_auth0User m u) as [a'|] eqn:E; simpl in Hf; [|done].
  injection Hf as <- <-. done.
Qed.

Lemma get_auth0User_spec auth0Users user a :
  get_auth0User (auth0UserMap auth0Users) user = Some a ->
  a ∈ auth0Users /\ auth0Sub user = Some (a0_user_id a).
Proof.
  unfold get_auth0User. destruct (auth0Sub user) as [sub|]; simpl; [|done].
  intros [Ha <-]%auth0UserMap_lookup. done.
Qed.

End IdentifyFacts.

(** ** identify-auth0-users: the decision for one email group *)
Section Decisions.

Import IdentifyUsers.

Context (getTime : string -> Js.number).

Lemma paired_fst duplicates auth0Users :
  fst <$> paired duplicates auth0Users = existingUsers duplicates auth0Users.
Proof. apply with_auth0Data_existing. Qed.

Lemma paired_length duplicates auth0Users :
  length (paired duplicates auth0Users) = length (existingUsers duplicates auth0Users).
Proof. by rewrite <- paired_fst, length_fmap. Qed.

Lemma paired_elem duplicates auth0Users user a :
  (user, a) ∈ paired duplicates auth0Users ->
  user ∈ existingUsers duplicates auth0Users
  /\ get_auth0User (auth0UserMap auth0Users) user = Some a
  /\ a ∈ auth0Users /\ auth0Sub user = Some (a0_user_id a).
Proof.
  intros [Hu Ha]%with_auth0Data_elem. split_and!; [done|done| |];
    by destruct (get_auth0User_spec _ _ _ Ha).
Qed.

(** With two survivors or more the sorted array has a first element,
    which is one of the pairs. *)
Lemma sortedUsers_head duplicates auth0Users :
  2 <= length (existingUsers duplicates auth0Users) ->
  exists user a,
    head (sortedUsers getTime duplicates auth0Users) = Some (user, a)
    /\ (user, a) ∈ paired duplicates auth0Users.
Proof.
  intros Hlen. unfold sortedUsers. fold (paired duplicates auth0Users).
  destruct (Js.sort (comparefn getTime) (paired duplicates auth0Users))
    as [|[user a] rest] eqn:E.
  - apply (f_equal length) in E. rewrite sort_length, paired_length in E.
    simpl in E. lia.
  - exists user, a. split; [done|].
    rewrite <- (sort_Permutation (comparefn getTime)), E. apply elem_of_cons. by left.
Qed.

Lemma processDuplicateUsers_many duplicates auth0Users :
  2 <= length (existingUsers duplicates auth0Users) ->
  processDuplicateUsers getTime duplicates auth0Users
  = {| d_userToKeep := fst <$> head (sortedUsers getTime duplicates auth0Users);
       d_auth0User := snd <$> head (sortedUsers getTime duplicates auth0Users);
       d_action := manual_review;
       d_reason :=
         pretty (length (existingUsers duplicates auth0Users))
           +:+ " users exist in Auth0 - manual review required";
       d_requiresManualReview := Some true |}.
Proof.
  intros Hlen. unfold processDuplicateUsers.
  destruct (existingUsers duplicates auth0Users) as [|u1 [|u2 rest]] eqn:E;
    simpl in Hlen; [lia|lia|]. by rewrite <- E.
Qed.

(** C7: the candidates that survive are those whose [auth0Sub] is the id of
    an account Auth0 returned for the email.  With no survivor the group
    is skipped, the reason saying that all users were deleted from Auth0;
    with one survivor that candidate is kept, together with its Auth0
    record; with two or more the group goes to manual review, flagged as
    such, and a suggested candidate with its Auth0 record is still given. *)
Theorem C7_decision_by_number_of_survivors
    (duplicates : list DuplicateUser) (auth0Users : list Auth0User) :
  let survivors := existingUsers duplicates auth0Users in
  let d := processDuplicateUsers getTime duplicates auth0Users in
  (forall user,
     user ∈ survivors
     <-> user ∈ duplicates
         /\ exists sub a, auth0Sub user = Some sub /\ sub <> ""
                          /\ a ∈ auth0Users /\ a0_user_id a = sub)
  /\ (length survivors = 0 ->
      d_action d = skip /\ d_reason d = "All users deleted from Auth0"
      /\ d_userToKeep d = None /\ d_auth0User d = None)
  /\ (forall user, survivors = [user] ->
      d_action d = keep /\ d_userToKeep d = Some user
      /\ exists a, d_auth0User d = Some a
                   /\ get_auth0User (auth0UserMap auth0Users) user = Some a
                   /\ a ∈ auth0Users /\ auth0Sub user = Some (a0_user_id a))
  /\ (2 <= length survivors ->
      d_action d = manual_review /\ d_requiresManualReview d = Some true
      /\ exists user a, d_userToKeep d = Some user /\ d_auth0User d = Some a
                        /\ user ∈ survivors
                        /\ get_auth0User (auth0UserMap auth0Users) user = Some a
                        /\ a ∈ auth0Users /\ auth0Sub user = Some (a0_user_id a)).
Proof.
  intros survivors d. split_and!.
  - intros user. apply existingUsers_spec.
  - intros Hlen. subst d. unfold processDuplicateUsers. fold survivors.
    by destruct survivors.
  - intros user Hs. subst d. unfold processDuplicateUsers. fold survivors.
    rewrite Hs. simpl. split_and!; [done|done|].
    assert (user ∈ survivors) as Hin by (rewrite Hs; apply elem_of_cons; by left).
    apply list_elem_of_In, filter_In in Hin as [_ Hex].
    destruct (existsInAuth0_get _ _ Hex) as [a Ha].
    exists a. split_and!; [done|done| |]; by destruct (get_auth0User_spec _ _ _ Ha).
  - intros Hlen. subst d. rewrite processDuplicateUsers_many by done. simpl.
    split_and!; [done|done|].
    destruct (sortedUsers_head duplicates auth0Users Hlen) as (user & a & Hh & Hin).
    exists user, a. rewrite Hh. simpl.
    destruct (paired_elem _ _ _ _ Hin) as (? & ? & ? & ?). done.
Qed.

End Decisions.

(** ** identify-auth0-users: the suggested candidate *)
Section Suggestion.

Import IdentifyUsers.

Context (getTime : string -> Js.number).






(** When every survivor has a last login, or none has, the comparison is
    consistent. *)
Lemma consistent_all_timed survivors :
  (forall s, s ∈ survivors -> is_Some (time_of getTime (snd s))) -> consistent getTime survivors.
Proof.
  intros Hall x y z Hx Hy Hz Hyx Hzy Hzx.
  destruct (Hall x Hx) as [tx Etx], (Hall y Hy) as [ty Ety], (Hall z Hz) as [tz Etz].
  unfold outranks in *. rewrite Etx, Ety, Etz in *.
  assert (logins (snd y) <= logins (snd x))%Z as L1 by lia.
  assert (logins (snd z) <= logins (snd y))%Z as L2 by lia.
  destruct Hzx as [?|(Heq & tz' & tx' & [= <-] & [= <-] & Hlt)]; [lia|].
  assert (logins (snd x) = logins (snd y)) as E1 by lia.
  assert (logins (snd y) = logins (snd z)) as E2 by lia.
  destruct (Z_lt_le_dec tx ty) as [Hxy|Hxy].
  - apply Hyx. right. split; [lia|]. by exists ty, tx.
  - apply Hzy. right. split; [lia|]. exists tz, ty. split_and!; [done|done|lia].
Qed.

Lemma consistent_none_timed survivors :
  (forall s, s ∈ survivors -> time_of getTime (snd s) = None) -> consistent getTime survivors.
Proof.
  intros Hnone x y z Hx Hy Hz Hyx Hzy Hzx.
  unfold outranks in *. rewrite (Hnone x Hx), (Hnone y Hy), (Hnone z Hz) in *.
  destruct Hzx as [?|(_ & ? & ? & ? & _)]; [|done].
  assert (logins (snd y) <= logins (snd x))%Z by lia.
  assert (logins (snd z) <= logins (snd y))%Z by lia. lia.
Qed.




End Suggestion.

(** ** migrate-auth0-users: the worker *)

Ltac simp :=
  cbn -[Js.nullish String.append pretty
        MigrateUsers.update_payload MigrateUsers.create_payload
        MigrateUsers.Auth0ExportedUser_parse
        ImportPasswords.password_payload IdentifyUsers.query].

(** Case analysis on every answer the environment can give, one call
    after the other. *)
Ltac explore svc :=
  repeat first
    [ lazymatch goal with
      | |- context [svc ?c ?w] => destruct (svc c w) as [[?|[]] ?] eqn:?; simp
      end
    | match goal with
      | |- context [match ?l with [] => _ | _ :: _ => _ end] =>
          is_var l; destruct l; simp
      | |- context [(?s =? 429)%Z] => destruct (s =? 429)%Z eqn:?; simp
      end ].

(** A hypothesis that an event is in an explicit trace, case by case. *)
Ltac in_trace H :=
  repeat (apply elem_of_cons in H as [H|H]; [try discriminate H|]);
  try (by apply elem_of_nil in H).

Ltac unfold_promises :=
  unfold MigrateUsers.processLine, MigrateUsers.findOrCreateUser, MigrateUsers.updateUser,
    UpdateAuth0Users.processLine, ImportPasswords.updateUserPassword,
    bind, try_catch, ret, throw, perform, console_log, console_error, emit, fresh;
  simp.

(** Case analysis on the answer to the next call. *)
Ltac next_answer svc :=
  lazymatch goal with
  | |- context [svc ?c ?w] =>
      let r := fresh "r" in
      let w' := fresh "w" in
      let E := fresh "E" in
      destruct (svc c w) as [r w'] eqn:E; simp
  end.

Ltac not_in_trace :=
  let H := fresh in
  solve [intros H; repeat (apply elem_of_cons in H as [H|H]; [discriminate H|]);
         by apply elem_of_nil in H].

Section MigrationWorker.

Import MigrateUsers.

Context {W : Type} (svc : Services W) (toLowerCase : string -> string).

Lemma findOrCreateUser_fetch_fails exportedUser w error w0 :
  Js.truthy (workos_user_id exportedUser) = true ->
  svc (workos_getUser (Js.nullish (workos_user_id exportedUser) "")) w = (Rejected error, w0) ->
  findOrCreateUser svc toLowerCase exportedUser (fresh w)
  = fallback svc toLowerCase exportedUser error w0
      [Called (workos_getUser (Js.nullish (workos_user_id exportedUser) "")) (Some error)].
Proof.
  intros Ht Hget. unfold fallback. unfold_promises. rewrite Ht. simp. rewrite Hget.
  destruct error; simp; try done;
    next_answer svc; destruct r as [[|u [|u' l]]|e]; simp; try done;
    next_answer svc; by destruct r.
Qed.


Lemma findOrCreateUser_fetch_succeeds exportedUser w user w1 :
  Js.truthy (workos_user_id exportedUser) = true ->
  svc (workos_getUser (Js.nullish (workos_user_id exportedUser) "")) w = (Resolved user, w1) ->
  findOrCreateUser svc toLowerCase exportedUser (fresh w)
  = let update := workos_updateUser (update_payload exportedUser user) in
    (match fst (svc update w1) with
     | Resolved _ => Resolved {| workOsUser := Some user; created := false |}
     | Rejected e => Rejected e
     end,
     {| world := snd (svc update w1);
        trace := [Called (workos_getUser (Js.nullish (workos_user_id exportedUser) "")) None;
                  Called update (failure_of (fst (svc update w1)))] |}).
Proof.
  intros Ht Hget. unfold_promises. rewrite Ht. simp. rewrite Hget. simp.
  next_answer svc. by destruct r.
Qed.

(** [processLine] on a line that parses: [findOrCreateUser], then the
    ledger line or the complaint. *)
Lemma processLine_parsed line recordNumber exportedUser (st : state W) :
  Auth0ExportedUser_parse line = Resolved exportedUser ->
  processLine svc toLowerCase line recordNumber st
  = match findOrCreateUser svc toLowerCase exportedUser st with
    | (Rejected e, st') => (Rejected e, st')
    | (Resolved found, st') =>
        match workOsUser found with
        | None =>
            (Resolved false,
             {| world := world st';
                trace := trace st' ++
                  [Console stderr
                     ("(" +:+ pretty recordNumber +:+ ") Could not find or create user "
                        +:+ user_id exportedUser) None] |})
        | Some workOsUser =>
            let write :=
              fs_writeFile_append results_file
                (LedgerLine {| mr_workos_user_id := id workOsUser;
                               mr_auth0_user_id := user_id exportedUser;
                               mr_created := created found |}) in
            match svc write (world st') with
            | (Rejected e, w) =>
                (Rejected e,
                 {| world := w; trace := trace st' ++ [Called write (Some e)] |})
            | (Resolved _, w) =>
                (Resolved true,
                 {| world := w;
                    trace := (trace st' ++ [Called write None]) ++
                      [Console stdout
                         ("(" +:+ pretty recordNumber +:+ ") "
                            +:+ (if created found then "Imported" else "Updated")
                            +:+ " Auth0 user " +:+ user_id exportedUser
                            +:+ " as WorkOS user " +:+ id workOsUser) None] |})
            end
        end
    end.
Proof.
  intros Hparse. unfold processLine. rewrite Hparse. unfold bind at 1.
  destruct (findOrCreateUser svc toLowerCase exportedUser st) as [[found|e] st']; [|done].
  destruct (workOsUser found) as [u|]; [|done].
  unfold bind, perform, console_log, emit, ret. simp.
  next_answer svc. by destruct r.
Qed.

(** C4: a record whose [workos_user_id] is set (a non-empty string) is
    fetched first, [createUser] is never called for it whatever the
    services answer, and an outcome, when there is one, has
    [created = false]; when the fetch succeeds the next and last call is
    the update of the fetched user, which is the outcome if it succeeds.
    The update names the fetched user by its id and carries the merge:
    the email is verified if the account's was or the record says so,
    the names are the record's, and the metadata hold the record's Auth0
    id and its region if it has one. *)
Theorem C4_record_with_target_id_is_updated (exportedUser : Auth0ExportedUser) (w : W) :
  Js.truthy (workos_user_id exportedUser) = true ->
  let target := Js.nullish (workos_user_id exportedUser) "" in
  let verified :=
    match email_verified exportedUser with
    | Some (Js.JBool true) => true
    | Some (Js.JString s) => String.eqb s "true"
    | _ => false
    end in
  let merged_metadata :=
    ("auth0Sub", user_id exportedUser)
      :: (if Js.truthy (region exportedUser)
          then [("region", Js.nullish (region exportedUser) "")]
          else []) in
  let update_of (account : User) :=
    workos_updateUser
      {| uu_userId := id account;
         uu_emailVerified := Some (emailVerified account || verified);
         uu_firstName := given_name exportedUser;
         uu_lastName := family_name exportedUser;
         uu_metadata := merged_metadata;
         uu_passwordHash := None;
         uu_passwordHashType := None |} in
  let outcome := findOrCreateUser svc toLowerCase exportedUser (fresh w) in
  (exists failure rest,
     trace (snd outcome) = Called (workos_getUser target) failure :: rest)
  /\ (forall payload failure,
        Called (workos_createUser payload) failure ∉ trace (snd outcome))
  /\ (forall found, fst outcome = Resolved found -> created found = false)
  /\ (forall user w1,
        svc (workos_getUser target) w = (Resolved user, w1) ->
        trace (snd outcome)
        = [Called (workos_getUser target) None;
           Called (update_of user) (failure_of (fst (svc (update_of user) w1)))]
        /\ (forall updated,
              fst (svc (update_of user) w1) = Resolved updated ->
              fst outcome = Resolved {| workOsUser := Some user; created := false |})).
Proof.
  intros Ht target verified merged_metadata update_of outcome.
  subst outcome target.
  destruct (svc (workos_getUser (Js.nullish (workos_user_id exportedUser) "")) w)
    as [[user|error] w0] eqn:Hget.
  - rewrite (findOrCreateUser_fetch_succeeds _ _ _ _ Ht Hget). simp.
    split_and!.
    + by eexists _, _.
    + intros payload failure. not_in_trace.
    + intros found. next_answer svc.
      destruct r; [intros [= Hf]; by subst found | done].
    + intros user' w1 [= <- <-]. split; [done|].
      change (workos_updateUser (update_payload exportedUser user)) with (update_of user).
      by intros updated ->.
  - rewrite (findOrCreateUser_fetch_fails _ _ _ _ Ht Hget). unfold fallback.
    split_and!; [| | |done].
    + destruct error; simp; try (by eexists _, _);
        next_answer svc; destruct r as [[|u [|u' l]]|e]; simp; try (by eexists _, _);
        next_answer svc; by eexists _, _.
    + intros payload failure.
      destruct error; simp; try not_in_trace;
        next_answer svc; destruct r as [[|u [|u' l]]|e]; simp; try not_in_trace;
        next_answer svc; not_in_trace.
    + intros found.
      destruct error; simp; try done;
        next_answer svc; destruct r as [[|u [|u' l]]|e]; simp;
        try (by intros [= <-]); try done;
        next_answer svc; destruct r; simp; try done; by intros [= <-].
Qed.


(** C10 (as amended): when a record has a [workos_user_id] and fetching
    that user fails with an error that is not a rate limit, the worker
    falls back to the search by lowercased email, as after a failed
    creation: one match is updated, named by its id, with the merge of
    the record (verification, names, metadata); no match or several end
    in the could-not-find-or-create failure. *)
Theorem C10_fetch_failure_falls_back_to_email_search
    (line : Js.json) (recordNumber : nat) (exportedUser : Auth0ExportedUser)
    (w w0 w1 : W) (error : exn) (matchingUsers : list User) :
  Auth0ExportedUser_parse line = Resolved exportedUser ->
  Js.truthy (workos_user_id exportedUser) = true ->
  let verified :=
    match email_verified exportedUser with
    | Some (Js.JBool true) => true
    | Some (Js.JString s) => String.eqb s "true"
    | _ => false
    end in
  let merged_metadata :=
    ("auth0Sub", user_id exportedUser)
      :: (if Js.truthy (region exportedUser)
          then [("region", Js.nullish (region exportedUser) "")]
          else []) in
  let update_of (account : User) :=
    workos_updateUser
      {| uu_userId := id account;
         uu_emailVerified := Some (emailVerified account || verified);
         uu_firstName := given_name exportedUser;
         uu_lastName := family_name exportedUser;
         uu_metadata := merged_metadata;
         uu_passwordHash := None;
         uu_passwordHashType := None |} in
  let fetch := workos_getUser (Js.nullish (workos_user_id exportedUser) "") in
  let search := workos_listUsers (toLowerCase (email exportedUser)) in
  svc fetch w = (Rejected error, w0) ->
  isRateLimitExceededException error = false ->
  svc search w0 = (Resolved matchingUsers, w1) ->
  (forall existingUser,
     matchingUsers = [existingUser] ->
     let update := update_of existingUser in
     findOrCreateUser svc toLowerCase exportedUser (fresh w)
     = (match fst (svc update w1) with
        | Resolved _ => Resolved {| workOsUser := Some existingUser; created := false |}
        | Rejected e => Rejected e
        end,
        {| world := snd (svc update w1);
           trace := [Called fetch (Some error); Called search None;
                     Called update (failure_of (fst (svc update w1)))] |}))
  /\ (length matchingUsers <> 1 ->
      processLine svc toLowerCase line recordNumber (fresh w)
      = (Resolved false,
         {| world := w1;
            trace := [Called fetch (Some error); Called search None;
                      Console stdout "Can't migrate user" (Some error);
                      Console stderr
                        ("(" +:+ pretty recordNumber
                           +:+ ") Could not find or create user "
                           +:+ user_id exportedUser) None] |})).
Proof.
  intros Hparse Ht verified merged_metadata update_of fetch search Hfetch Hrl Hsearch.
  pose proof (findOrCreateUser_fetch_fails _ _ _ _ Ht Hfetch) as Hfind.
  unfold fallback in Hfind. fold search fetch in Hfind. rewrite Hsearch in Hfind.
  split.
  - intros existingUser -> update.
    rewrite Hfind.
    change (workos_updateUser (update_payload exportedUser existingUser)) with update.
    destruct error; try done; simp; by destruct (svc update w1).
  - intros Hlen.
    rewrite (processLine_parsed _ _ _ _ Hparse), Hfind.
    destruct error; try done; destruct matchingUsers as [|u [|u' l]]; try done.
Qed.

End MigrationWorker.


(** ** Rate limits *)
Section RateLimits.

Context {W : Type} (svc : Services W) (toLowerCase : string -> string).

Lemma migrate_rate_limit_propagates line recordNumber (w : W) c retryAfter :
  Called c (Some (RateLimitExceededException retryAfter))
    ∈ trace (snd (MigrateUsers.processLine svc toLowerCase line recordNumber (fresh w))) ->
  fst (MigrateUsers.processLine svc toLowerCase line recordNumber (fresh w))
  = Rejected (RateLimitExceededException retryAfter).
Proof.
  unfold_promises.
  destruct (MigrateUsers.Auth0ExportedUser_parse line) as [exportedUser|error]; simp.
  - destruct (Js.truthy (workos_user_id exportedUser)); simp;
      explore svc; intros H; in_trace H; by injection H as _ <-.
  - intros H. in_trace H.
Qed.

Lemma update_auth0_rate_limit_propagates line recordNumber (w : W) c error :
  isManagementApiError429 error = true ->
  Called c (Some error)
    ∈ trace (snd (UpdateAuth0Users.processLine svc line recordNumber (fresh w))) ->
  fst (UpdateAuth0Users.processLine svc line recordNumber (fresh w)) = Rejected error.
Proof.
  intros H429. unfold_promises.
  explore svc; intros H; in_trace H; injection H as _ ->; simpl in H429; congruence.
Qed.

Lemma passwords_rate_limit_propagates exportedUser (w : W) c retryAfter :
  is_workos c = true ->
  Called c (Some (RateLimitExceededException retryAfter))
    ∈ trace (snd (ImportPasswords.updateUserPassword svc toLowerCase exportedUser (fresh w))) ->
  fst (ImportPasswords.updateUserPassword svc toLowerCase exportedUser (fresh w))
  = Rejected (RateLimitExceededException retryAfter).
Proof.
  intros Hc. unfold_promises.
  explore svc; intros H; in_trace H; injection H as -> E; simpl in Hc;
    try discriminate Hc; by subst.
Qed.

(** The Auth0 update of the password worker: whatever it answers, the
    worker resolves with the user. *)
Lemma passwords_metadata_failure_absorbed exportedUser (w w1 w2 : W) matchingUser workOsUser :
  svc (workos_listUsers (toLowerCase (ImportPasswords.email exportedUser))) w
  = (Resolved [matchingUser], w1) ->
  svc (workos_updateUser (ImportPasswords.password_payload (id matchingUser) exportedUser)) w1
  = (Resolved workOsUser, w2) ->
  fst (ImportPasswords.updateUserPassword svc toLowerCase exportedUser (fresh w))
  = Resolved (Some workOsUser).
Proof.
  intros Hlist Hupdate. unfold_promises. rewrite Hlist. simp. rewrite Hupdate. simp.
  next_answer svc. by destruct r.
Qed.

(** C6 (as amended): a rate limit signalled by WorkOS
    ([RateLimitExceededException]) at any call of the migration worker or
    at any WorkOS call of the password worker, and a rate limit signalled
    by Auth0 (status 429) at the call of the update-auth0 worker, leave
    the worker as the very error that was raised: what the workers'
    handlers absorb is never one of these.  The password worker's update
    of the Auth0 metadata is apart: once the password is stored, the
    worker resolves with the user whatever that update answers. *)
Theorem C6_rate_limits_leave_the_worker :
  (forall line recordNumber (w : W) c retryAfter,
     Called c (Some (RateLimitExceededException retryAfter))
       ∈ trace (snd (MigrateUsers.processLine svc toLowerCase line recordNumber (fresh w))) ->
     fst (MigrateUsers.processLine svc toLowerCase line recordNumber (fresh w))
     = Rejected (RateLimitExceededException retryAfter))
  /\ (forall line recordNumber (w : W) c error,
        isManagementApiError429 error = true ->
        Called c (Some error)
          ∈ trace (snd (UpdateAuth0Users.processLine svc line recordNumber (fresh w))) ->
        fst (UpdateAuth0Users.processLine svc line recordNumber (fresh w))
        = Rejected error)
  /\ (forall exportedUser (w : W) c retryAfter,
        is_workos c = true ->
        Called c (Some (RateLimitExceededException retryAfter))
          ∈ trace (snd (ImportPasswords.updateUserPassword svc toLowerCase exportedUser (fresh w))) ->
        fst (ImportPasswords.updateUserPassword svc toLowerCase exportedUser (fresh w))
        = Rejected (RateLimitExceededException retryAfter))
  /\ (forall exportedUser (w w1 w2 : W) matchingUser workOsUser,
        svc (workos_listUsers (toLowerCase (ImportPasswords.email exportedUser))) w
        = (Resolved [matchingUser], w1) ->
        svc (workos_updateUser
               (ImportPasswords.password_payload (id matchingUser) exportedUser)) w1
        = (Resolved workOsUser, w2) ->
        fst (ImportPasswords.updateUserPassword svc toLowerCase exportedUser (fresh w))
        = Resolved (Some workOsUser)).
Proof.
  split_and!.
  - apply migrate_rate_limit_propagates.
  - apply update_auth0_rate_limit_propagates.
  - apply passwords_rate_limit_propagates.
  - apply passwords_metadata_failure_absorbed.
Qed.

End RateLimits.

(** ** identify-auth0-users: a failed query *)
Section FailedQuery.

Import IdentifyUsers.

Context {W : Type} (svc : Services W) (getTime : string -> Js.number).

Lemma processEmailGroup_answer (svc0 : Services W) email duplicates recordNumber (w : W) :
  fst (processEmailGroup svc0 getTime email duplicates recordNumber (fresh w))
  = let auth0Users :=
      match fst (svc0 (auth0_users_getAll (query email)) w) with
      | Resolved response => Js.nullish response []
      | Rejected _ => []
      end in
    let d := processDuplicateUsers getTime duplicates auth0Users in
    Resolved {| pr_email := email; duplicates := duplicates; auth0Users := auth0Users;
                userToKeep := d_userToKeep d; auth0User := d_auth0User d;
                action := d_action d; reason := d_reason d;
                requiresManualReview := d_requiresManualReview d |}.
Proof.
  unfold processEmailGroup, getAuth0UsersByEmail. unfold_promises.
  next_answer svc0. by destruct r.
Qed.

(** C9: when the query to Auth0 fails, whatever the error, the group's
    result lists no Auth0 account and skips the group with the reason
    that all its users were deleted from Auth0; it is the result obtained
    when the query succeeds and Auth0 has no account under the email. *)
Theorem C9_failed_query_reads_as_all_deleted
    (email : string) (duplicates : list DuplicateUser) (recordNumber : nat)
    (w w0 : W) (error : exn) :
  svc (auth0_users_getAll (query email)) w = (Rejected error, w0) ->
  fst (processEmailGroup svc getTime email duplicates recordNumber (fresh w))
  = Resolved {| pr_email := email; duplicates := duplicates; auth0Users := [];
                userToKeep := None; auth0User := None;
                action := skip; reason := "All users deleted from Auth0";
                requiresManualReview := None |}
  /\ (forall (svc' : Services W) (w' w1 : W),
        svc' (auth0_users_getAll (query email)) w' = (Resolved (Some []), w1) ->
        fst (processEmailGroup svc' getTime email duplicates recordNumber (fresh w'))
        = fst (processEmailGroup svc getTime email duplicates recordNumber (fresh w))).
Proof.
  intros Hfail. split.
  - rewrite processEmailGroup_answer, Hfail. simpl.
    unfold processDuplicateUsers, existingUsers, auth0UserMap. simpl.
    assert (List.filter (existsInAuth0 ∅) duplicates = []) as ->; [|done].
    induction duplicates as [|u l IH]; simpl; [done|].
    unfold existsInAuth0 at 1, has. rewrite lookup_empty, andb_false_r. exact IH.
  - intros svc' w' w1 Hempty.
    rewrite !processEmailGroup_answer. by rewrite Hfail, Hempty.
Qed.

End FailedQuery.

(** ** The dispatcher never runs more tasks than its capacity *)
Section Dispatcher.

Import PQueue.

Lemma tryToStartAnother_concurrency q :
  concurrency (tryToStartAnother q) = concurrency q.
Proof.
  unfold tryToStartAnother. destruct (waiting q); [done|]. by case_match.
Qed.

Lemma tryToStartAnother_capacity q :
  within_capacity q -> within_capacity (tryToStartAnother q).
Proof.
  unfold within_capacity, tryToStartAnother, activeCount. intros H.
  destruct (waiting q) as [|t rest]; [done|].
  destruct (negb (isPaused q) && (length (running q) <? concurrency q)%nat) eqn:E; [|done].
  apply andb_true_iff in E as [_ Hlt%Nat.ltb_lt]. simpl. rewrite length_app. simpl. lia.
Qed.

Lemma remove_length t l : length (remove t l) <= length l.
Proof.
  induction l as [|x l IH]; simpl; [done|]. destruct (x =? t)%nat; simpl; lia.
Qed.

Lemma add_capacity t q :
  within_capacity q ->
  within_capacity (add t q) /\ concurrency (add t q) = concurrency q.
Proof.
  intros H. unfold add. split.
  - by apply tryToStartAnother_capacity.
  - by rewrite tryToStartAnother_concurrency.
Qed.

Lemma next_capacity t q :
  within_capacity q ->
  within_capacity (next t q) /\ concurrency (next t q) = concurrency q.
Proof.
  intros H. unfold next. split.
  - apply tryToStartAnother_capacity. unfold within_capacity, activeCount in *. simpl.
    pose proof (remove_length t (running q)). lia.
  - by rewrite tryToStartAnother_concurrency.
Qed.

Lemma pause_capacity q :
  within_capacity q ->
  within_capacity (pause q) /\ concurrency (pause q) = concurrency q.
Proof. done. Qed.

Lemma dispatch_capacity n q :
  within_capacity q ->
  within_capacity (dispatch n q) /\ concurrency (dispatch n q) = concurrency q.
Proof.
  revert q. induction n as [|n IH]; intros q H; simpl; [done|].
  destruct (IH (tryToStartAnother q)) as [H1 H2].
  - by apply tryToStartAnother_capacity.
  - split; [done|]. by rewrite H2, tryToStartAnother_concurrency.
Qed.

Lemma start_capacity q :
  within_capacity q ->
  within_capacity (start q) /\ concurrency (start q) = concurrency q.
Proof.
  intros H. unfold start. destruct (isPaused q); [|done].
  by apply (dispatch_capacity (size q)
              {| concurrency := concurrency q; running := running q;
                 waiting := waiting q; isPaused := false |}).
Qed.

Import MigrateUsers.

Lemma step_capacity wait limit skip r h r' :
  within_capacity (queue r) ->
  step wait limit skip r h = Some r' ->
  within_capacity (queue r') /\ concurrency (queue r') = concurrency (queue r).
Proof.
  intros H. unfold step. destruct (unhandled r); [done|].
  destruct h as [|recordNumber outcome|].
  - destruct (unread r); [done|].
    destruct (wait (queue r) limit); [|done].
    intros [= <-]. simpl.
    destruct (skip <=? recordCount r)%nat; [|done].
    by apply add_capacity.
  - case_bool_decide; [|done].
    destruct (next_capacity recordNumber (queue r) H) as [H1 H2].
    destruct outcome as [successful|error]; intros [= <-]; simpl; [done|].
    destruct error; simpl; try done.
    destruct (add_capacity recordNumber (pause (next recordNumber (queue r)))) as [H3 H4];
      [done|]. split; [done|]. by rewrite H4.
  - destruct (sleeping r); [done|]. intros [= <-]. simpl. by apply start_capacity.
Qed.

Lemma reachable_capacity wait N M skip r :
  reachable wait N M skip r ->
  within_capacity (queue r) /\ concurrency (queue r) = N.
Proof.
  induction 1 as [|r h r' _ [IH1 IH2] Hstep].
  - split; [|done]. unfold within_capacity, activeCount. simpl. lia.
  - destruct (step_capacity _ _ _ _ _ _ IH1 Hstep) as [H1 H2].
    split; [done|]. by rewrite H2.
Qed.

Lemma run_reachable wait N M skip hs r r' :
  reachable wait N M skip r -> run wait N skip r hs = Some r' ->
  reachable wait N M skip r'.
Proof.
  revert r. induction hs as [|h hs IH]; intros r Hr; simpl.
  - by intros [= <-].
  - destruct (step wait N skip r h) as [r1|] eqn:E; [|done].
    apply IH. by eapply reachable_step.
Qed.

(** C8: in a migration of [M] records through a queue of capacity
    [N >= 1], whatever the order in which lines arrive, tasks settle (well,
    rate limited or otherwise failing) and pauses end, and whichever way
    the loop waits before it takes a line, the number of tasks in flight
    never exceeds [N]. *)
Theorem C8_activeCount_never_exceeds_capacity
    (wait : Queue -> nat -> bool) (N M skip : nat) (r : Run) :
  1 <= N ->
  reachable wait N M skip r ->
  activeCount (queue r) <= N.
Proof.
  intros _ Hr. destruct (reachable_capacity _ _ _ _ _ Hr) as [H1 H2].
  unfold within_capacity in H1. lia.
Qed.

End Dispatcher.

(** ** identify-auth0-users: where the results are written *)
Section Destinations.

Import IdentifyUsers.

Context {W : Type} (svc : Services W) (getTime : string -> Js.number).

Lemma appended_app path tr1 tr2 :
  appended path (tr1 ++ tr2) = appended path tr1 ++ appended path tr2.
Proof. unfold appended. apply omap_app. Qed.

(** The file depends on the action alone. *)
Lemma targetFile_by_action o r1 r2 :
  action r1 = action r2 -> targetFile o r1 = targetFile o r2.
Proof. unfold targetFile. by intros ->. Qed.

Lemma task_run o email candidates recordNumber results (st : state W) :
  dryRun o = false ->
  writes_succeed svc ->
  exists result evs w',
    task svc getTime o email candidates recordNumber results st
    = (Resolved (results ++ [result]), {| world := w'; trace := trace st ++ evs |})
    /\ pr_email result = email
    /\ duplicates result = candidates
    /\ forall path,
         appended path evs
         = if String.eqb (targetFile o result) path then [result] else [].
Proof.
  intros Hdry Hwrites.
  unfold task, processEmailGroup, getAuth0UsersByEmail, report. unfold_promises.
  rewrite Hdry. simp.
  next_answer svc.
  set (auth0Users := match r with Resolved response => Js.nullish response [] | Rejected _ => [] end).
  set (d := processDuplicateUsers getTime candidates auth0Users).
  set (result := {| pr_email := email; duplicates := candidates;
                    auth0Users := auth0Users;
                    userToKeep := d_userToKeep d; auth0User := d_auth0User d;
                    action := d_action d; reason := d_reason d;
                    requiresManualReview := d_requiresManualReview d |}).
  pose proof (Hwrites (targetFile o result) (DecisionLine result) w) as Hw.
  destruct r as [response|error]; simp; fold auth0Users d; fold result;
    destruct (svc (fs_writeFile_append (targetFile o result) (DecisionLine result)) w)
      as [rw w'] eqn:Ew; simpl in Hw; subst rw; simp;
    destruct (d_userToKeep d) as [user|] eqn:Eu; simp;
    exists result; eexists; exists w'; rewrite <- !app_assoc;
    (split_and!; [reflexivity|done|done|]);
    intros path; unfold appended; simpl;
    by destruct (String.eqb (targetFile o result) path).
Qed.

Lemma main_loop_run o entries results recordCount (st : state W) :
  dryRun o = false ->
  writes_succeed svc ->
  exists new evs w',
    main_loop svc getTime o entries results recordCount st
    = (Resolved (results ++ new), {| world := w'; trace := trace st ++ evs |})
    /\ (fun r => (pr_email r, duplicates r)) <$> new = entries
    /\ forall path,
         appended path evs
         = List.filter (fun r => String.eqb (targetFile o r) path) new.
Proof.
  intros Hdry Hwrites. revert results recordCount st.
  induction entries as [|[email candidates] rest IH]; intros results recordCount st.
  - exists [], [], (world st). rewrite !app_nil_r. by destruct st.
  - simpl. unfold bind at 1.
    destruct (task_run o email candidates recordCount results st Hdry Hwrites)
      as (result & evs & w' & -> & Hemail & Hdups & Happ).
    unfold bind at 1.
    set (st1 := snd ((if at_threshold (S recordCount) (rateLimitThreshold o)
                      then sleep (Js.Num 1000) else ret tt)
                       {| world := w'; trace := trace st ++ evs |})).
    assert (exists evs1, st1 = {| world := w'; trace := trace st ++ evs ++ evs1 |}
                         /\ forall path, appended path evs1 = []) as (evs1 & Hst1 & Happ1).
    { subst st1. destruct (at_threshold _ _).
      - exists [Slept (Js.Num 1000)]. unfold sleep, emit. simpl.
        by rewrite <- app_assoc.
      - exists []. unfold ret. simpl. by rewrite app_nil_r. }
    assert ((if at_threshold (S recordCount) (rateLimitThreshold o)
             then sleep (Js.Num 1000) else ret tt)
              {| world := w'; trace := trace st ++ evs |} = (Resolved tt, st1)) as ->.
    { subst st1. by destruct (at_threshold _ _). }
    destruct (IH (results ++ [result]) (S recordCount) st1)
      as (new & evs2 & w2 & -> & Hnew & Happ2).
    exists (result :: new), (evs ++ evs1 ++ evs2), w2.
    rewrite Hst1. simpl. rewrite <- !app_assoc. simpl.
    split_and!; [done| rewrite Hemail, Hdups; f_equal; exact Hnew |].
    intros path. rewrite !appended_app, Happ, Happ1, Happ2. simpl.
    by destruct (String.eqb (targetFile o result) path).
Qed.

(** A [Map] holds each key once. *)
Lemma push_user_keys user m :
  NoDup (fst <$> m) -> NoDup (fst <$> push_user user m).
Proof.
  induction m as [|[k users] m IH]; simpl.
  - intros _. apply NoDup_singleton.
  - intros [Hk Hm]%NoDup_cons.
    destruct (String.eqb k (du_email user)) eqn:E; simpl.
    + by apply NoDup_cons.
    + apply NoDup_cons. split; [|by apply IH].
      intros Hin. apply Hk. clear IH Hk Hm.
      induction m as [|[k' users'] m IH]; simpl in *.
      * apply elem_of_cons in Hin as [->|Hin]; [|by apply elem_of_nil in Hin].
        by rewrite String.eqb_refl in E.
      * destruct (String.eqb k' (du_email user)); simpl in *; [done|].
        apply elem_of_cons in Hin as [->|Hin]; [apply elem_of_cons; by left|].
        apply elem_of_cons. right. by apply IH.
Qed.

Lemma usersByEmail_keys rows : NoDup (fst <$> usersByEmail rows).
Proof.
  unfold usersByEmail.
  assert (forall m, NoDup (fst <$> m) ->
                    NoDup (fst <$> foldl (fun m user => push_user user m) m rows)) as H.
  { induction rows as [|u rows IH]; intros m Hm; simpl; [done|].
    apply IH. by apply push_user_keys. }
  apply H. apply NoDup_nil_2.
Qed.

Lemma targetFile_eqb o r :
  NoDup [outputFile o; manualReviewFile o; skippedFile o] ->
  String.eqb (targetFile o r) (outputFile o) = bool_decide (action r = keep)
  /\ String.eqb (targetFile o r) (manualReviewFile o) = bool_decide (action r = manual_review)
  /\ String.eqb (targetFile o r) (skippedFile o) = bool_decide (action r = skip).
Proof.
  intros Hnd.
  apply NoDup_cons in Hnd as [H1 Hnd]. apply NoDup_cons in Hnd as [H2 _].
  assert (outputFile o <> manualReviewFile o) as Hom.
  { intros E. apply H1. rewrite E. apply elem_of_cons. by left. }
  assert (outputFile o <> skippedFile o) as Hos.
  { intros E. apply H1. rewrite E. apply elem_of_cons. right. apply elem_of_cons. by left. }
  assert (manualReviewFile o <> skippedFile o) as Hms.
  { intros E. apply H2. rewrite E. apply elem_of_cons. by left. }
  unfold targetFile. destruct (action r); simpl;
    rewrite ?String.eqb_refl; split_and!; try done;
    apply String.eqb_neq; congruence.
Qed.

(** C3 (as amended): outside a dry run, with three distinct destination
    paths and every append succeeding, [main] produces one result per
    email group, in the order of the groups, and each destination file
    receives exactly the results whose action is the file's: a result is
    appended once, to the file picked by its action alone. *)
Theorem C3_each_result_goes_to_the_file_of_its_action
    (o : Options) (rows : list DuplicateUser) (w : W) :
  dryRun o = false ->
  NoDup [outputFile o; manualReviewFile o; skippedFile o] ->
  writes_succeed svc ->
  exists results st',
    main_loop svc getTime o (usersByEmail rows) [] 0 (fresh w) = (Resolved results, st')
    /\ (fun r => (pr_email r, duplicates r)) <$> results = usersByEmail rows
    /\ NoDup (fst <$> usersByEmail rows)
    /\ appended (outputFile o) (trace st')
       = List.filter (fun r => bool_decide (action r = keep)) results
    /\ appended (manualReviewFile o) (trace st')
       = List.filter (fun r => bool_decide (action r = manual_review)) results
    /\ appended (skippedFile o) (trace st')
       = List.filter (fun r => bool_decide (action r = skip)) results
    /\ fst (main svc getTime o rows (fresh w))
       = Resolved (summary (usersByEmail rows) results).
Proof.
  intros Hdry Hnd Hwrites.
  destruct (main_loop_run o (usersByEmail rows) [] 0 (fresh w) Hdry Hwrites)
    as (results & evs & w' & Hrun & Hgroups & Happ).
  simpl in Hrun. eexists results, _. split; [exact Hrun|]. simpl.
  split_and!; [done|apply usersByEmail_keys| | | |].
  - rewrite Happ. apply List.filter_ext. intros r. by apply targetFile_eqb.
  - rewrite Happ. apply List.filter_ext. intros r. by apply targetFile_eqb.
  - rewrite Happ. apply List.filter_ext. intros r. by apply targetFile_eqb.
  - unfold main, bind. by rewrite Hrun.
Qed.

End Destinations.

(** ** identify-auth0-users: grouping the rows by email *)
Section Grouping.

Import IdentifyUsers.

Lemma group_of_push user m k :
  group_of k (push_user user m)
  = if String.eqb (du_email user) k
    then Some (default [] (group_of k m) ++ [user])
    else group_of k m.
Proof.
  induction m as [|[k' users] m IH]; simpl.
  - by destruct (String.eqb (du_email user) k).
  - destruct (String.eqb k' (du_email user)) eqn:E1; simpl.
    + apply String.eqb_eq in E1. subst k'. by destruct (String.eqb (du_email user) k).
    + destruct (String.eqb k' k) eqn:E2; [|exact IH].
      apply String.eqb_eq in E2. subst k'.
      rewrite String.eqb_sym in E1. by rewrite E1.
Qed.

Lemma group_of_foldl rows m k :
  group_of k (foldl (fun m user => push_user user m) m rows)
  = match group_of k m, rows_of k rows with
    | None, [] => None
    | g, l => Some (default [] g ++ l)
    end.
Proof.
  revert m. induction rows as [|u rows IH]; intros m; simpl.
  - destruct (group_of k m); [by rewrite app_nil_r|done].
  - rewrite IH. cbv beta. rewrite group_of_push. unfold rows_of. simpl.
    destruct (String.eqb (du_email u) k); simpl.
    + rewrite <- app_assoc. simpl. by destruct (group_of k m).
    + done.
Qed.

Lemma group_of_elem (m : list (string * list DuplicateUser)) k users :
  NoDup (fst <$> m) -> (k, users) ∈ m <-> group_of k m = Some users.
Proof.
  induction m as [|[k' users'] m IH]; simpl.
  - intros _. split; [by intros ?%elem_of_nil|done].
  - intros [Hk Hm]%NoDup_cons. rewrite elem_of_cons.
    destruct (String.eqb k' k) eqn:E.
    + apply String.eqb_eq in E. subst k'. split.
      * intros [[= ->]|Hin]; [done|]. exfalso. apply Hk.
        apply list_elem_of_fmap. by exists (k, users).
      * intros [= ->]. by left.
    + apply String.eqb_neq in E. rewrite <- (IH Hm). split.
      * intros [[= -> ->]|Hin]; [done|done].
      * intros Hin. by right.
Qed.

Lemma rows_of_nonempty k rows u : u ∈ rows -> du_email u = k -> rows_of k rows <> [].
Proof.
  intros Hin Hk Hnil.
  assert (u ∈ rows_of k rows) as H.
  { unfold rows_of. apply list_elem_of_In, filter_In. split; [by apply list_elem_of_In|].
    subst k. apply String.eqb_refl. }
  rewrite Hnil in H. by apply elem_of_nil in H.
Qed.

Lemma usersByEmail_elem rows k users :
  (k, users) ∈ usersByEmail rows <-> users = rows_of k rows /\ users <> [].
Proof.
  rewrite (group_of_elem _ _ _ (usersByEmail_keys rows)).
  unfold usersByEmail. rewrite group_of_foldl. simpl.
  destruct (rows_of k rows) as [|u l]; split; try done.
  - by intros [-> ?].
  - by intros [= <-].
  - by intros [-> _].
Qed.

(** The group of an email holds the rows with that email, all of them and
    in the order of the file; an email has a group exactly when a row has
    it, and no group is empty. *)
Theorem usersByEmail_groups_the_rows (rows : list DuplicateUser) (k : string)
    (users : list DuplicateUser) :
  ((k, users) ∈ usersByEmail rows <-> users = rows_of k rows /\ users <> [])
  /\ (k ∈ (fst <$> usersByEmail rows) <-> exists u, u ∈ rows /\ du_email u = k).
Proof.
  pose proof (usersByEmail_elem rows k) as Hgroup.
  split; [apply Hgroup|].
  rewrite list_elem_of_fmap. split.
  - intros ([k' users'] & -> & Hin). simpl.
    apply Hgroup in Hin as [-> Hne].
    destruct (rows_of k' rows) as [|u l] eqn:E; [done|].
    assert (u ∈ rows_of k' rows) as Hu by (rewrite E; apply elem_of_cons; by left).
    unfold rows_of in Hu. apply list_elem_of_In, filter_In in Hu as [Hu Hk].
    exists u. split; [by apply list_elem_of_In|by apply String.eqb_eq].
  - intros (u & Hu & Hk). exists (k, rows_of k rows). split; [done|].
    apply Hgroup. split; [done|]. by eapply rows_of_nonempty.
Qed.

Lemma push_user_fst user m :
  fst <$> push_user user m
  = if bool_decide (du_email user ∈ (fst <$> m)) then fst <$> m
    else (fst <$> m) ++ [du_email user].
Proof.
  induction m as [|[k users] m IH]; [done|].
  cbn [push_user]. destruct (String.eqb k (du_email user)) eqn:E;
    rewrite !fmap_cons; cbn [fst].
  - apply String.eqb_eq in E. subst k.
    rewrite bool_decide_eq_true_2; [done|]. apply elem_of_cons. by left.
  - apply String.eqb_neq in E. rewrite IH.
    destruct (bool_decide (du_email user ∈ (fst <$> m))) eqn:B.
    + apply bool_decide_eq_true in B. rewrite bool_decide_eq_true_2; [done|].
      apply elem_of_cons. by right.
    + apply bool_decide_eq_false in B. rewrite bool_decide_eq_false_2; [done|].
      intros [?|?]%elem_of_cons; [congruence|done].
Qed.

Lemma push_user_rows user m :
  concat (snd <$> push_user user m) ≡ₚ user :: concat (snd <$> m).
Proof.
  induction m as [|[k users] m IH]; [done|].
  cbn [push_user]. destruct (String.eqb k (du_email user));
    rewrite !fmap_cons, !concat_cons; cbn [snd].
  - rewrite <- app_assoc. cbn [app]. by rewrite <- Permutation_middle.
  - rewrite IH. by rewrite <- Permutation_middle.
Qed.

(** The groups come in the order in which their emails first occur in the
    file, each email once, and together they hold every row once. *)
Theorem usersByEmail_keeps_every_row (rows : list DuplicateUser) :
  fst <$> usersByEmail rows = first_seen (du_email <$> rows)
  /\ NoDup (fst <$> usersByEmail rows)
  /\ concat (snd <$> usersByEmail rows) ≡ₚ rows.
Proof.
  split_and!; [|apply usersByEmail_keys|].
  - unfold usersByEmail, first_seen.
    assert (forall m,
              fst <$> foldl (fun m user => push_user user m) m rows
              = foldl (fun seen k => if bool_decide (k ∈ seen) then seen else seen ++ [k])
                  (fst <$> m) (du_email <$> rows)) as H; [|apply (H [])].
    induction rows as [|u rows IH]; intros m; simpl; [done|].
    rewrite IH. cbv beta. by rewrite push_user_fst.
  - unfold usersByEmail.
    assert (forall m,
              concat (snd <$> foldl (fun m user => push_user user m) m rows)
              ≡ₚ concat (snd <$> m) ++ rows) as H; [|apply (H [])].
    induction rows as [|u rows IH]; intros m; simpl; [by rewrite app_nil_r|].
    rewrite IH. cbv beta. rewrite push_user_rows. cbn [app]. apply Permutation_middle.
Qed.

End Grouping.

(** ** identify-auth0-users: the loop over the groups *)
Section IdentifyLoop.

Import IdentifyUsers.

Context {W : Type} (svc : Services W) (getTime : string -> Js.number).

Lemma calls_app tr1 tr2 : calls (tr1 ++ tr2) = calls tr1 ++ calls tr2.
Proof. unfold calls. apply omap_app. Qed.

Lemma sleeps_app tr1 tr2 : sleeps (tr1 ++ tr2) = sleeps tr1 ++ sleeps tr2.
Proof. unfold sleeps. apply omap_app. Qed.

(** A task settles with one more result, whatever the services answer:
    the result is the decision on what Auth0 answered, and the task made
    the query and, outside a dry run, one append. *)
Lemma task_any o email candidates recordNumber results (st : state W) :
  exists result evs w',
    task svc getTime o email candidates recordNumber results st
    = (Resolved (results ++ [result]), {| world := w'; trace := trace st ++ evs |})
    /\ fst (processEmailGroup svc getTime email candidates recordNumber (fresh (world st)))
       = Resolved result
    /\ pr_email result = email
    /\ duplicates result = candidates
    /\ calls evs = calls_of_result o result
    /\ sleeps evs = [].
Proof.
  rewrite processEmailGroup_answer.
  unfold task, processEmailGroup, getAuth0UsersByEmail, report, calls_of_result.
  unfold_promises.
  next_answer svc.
  set (auth0Users := match r with Resolved response => Js.nullish response [] | Rejected _ => [] end).
  set (d := processDuplicateUsers getTime candidates auth0Users).
  set (result := {| pr_email := email; duplicates := candidates;
                    auth0Users := auth0Users;
                    userToKeep := d_userToKeep d; auth0User := d_auth0User d;
                    action := d_action d; reason := d_reason d;
                    requiresManualReview := d_requiresManualReview d |}).
  destruct r as [response|error]; simp; fold auth0Users d; fold result;
    destruct (dryRun o); simp;
    try (destruct (svc (fs_writeFile_append (targetFile o result) (DecisionLine result)) w)
           as [[[]|ew] w'] eqn:Ew; simp);
    destruct (d_userToKeep d) as [user|] eqn:Eu; simp;
    exists result; eexists; eexists; rewrite <- ?app_assoc;
    (split_and!; [reflexivity|done|done|done|done|done]).
Qed.

Lemma main_loop_any o entries results recordCount (st : state W) :
  exists new evs w',
    main_loop svc getTime o entries results recordCount st
    = (Resolved (results ++ new), {| world := w'; trace := trace st ++ evs |})
    /\ (fun r => (pr_email r, duplicates r)) <$> new = entries
    /\ calls evs = concat (calls_of_result o <$> new)
    /\ sleeps evs
       = (fun _ => Js.Num 1000)
           <$> List.filter (fun n => at_threshold n (rateLimitThreshold o))
                 (seq (S recordCount) (length entries))
    /\ Forall (decided getTime) new.
Proof.
  revert results recordCount st.
  induction entries as [|[email candidates] rest IH]; intros results recordCount st.
  - exists [], [], (world st). rewrite !app_nil_r. by destruct st.
  - cbn [main_loop]. unfold bind at 1.
    destruct (task_any o email candidates recordCount results st)
      as (result & evs & w' & -> & Hdec & Hemail & Hdups & Hcalls & Hsleeps).
    unfold bind at 1.
    set (pause := if at_threshold (S recordCount) (rateLimitThreshold o)
                  then [Slept (Js.Num 1000)] else []).
    assert ((if at_threshold (S recordCount) (rateLimitThreshold o)
             then sleep (Js.Num 1000) else ret tt)
              {| world := w'; trace := trace st ++ evs |}
            = (Resolved tt, {| world := w'; trace := trace st ++ evs ++ pause |})) as ->.
    { subst pause. destruct (at_threshold _ _).
      - unfold sleep, emit. simpl. by rewrite <- app_assoc.
      - unfold ret. by rewrite app_nil_r. }
    destruct (IH (results ++ [result]) (S recordCount)
                {| world := w'; trace := trace st ++ evs ++ pause |})
      as (new & evs2 & w2 & -> & Hnew & Hcalls2 & Hsleeps2 & Hdec2).
    exists (result :: new), (evs ++ pause ++ evs2), w2.
    cbn [trace]. rewrite <- !app_assoc. cbn [app].
    split_and!; [done| | | |].
    + rewrite fmap_cons, Hemail, Hdups. by f_equal.
    + rewrite !calls_app, Hcalls, Hcalls2, fmap_cons, concat_cons.
      subst pause. by destruct (at_threshold _ _).
    + rewrite !sleeps_app, Hsleeps, Hsleeps2. cbn [length seq List.filter].
      subst pause. by destruct (at_threshold _ _).
    + apply Forall_cons. split; [|done].
      rewrite processEmailGroup_answer in Hdec. injection Hdec as <-. by unfold decided.
Qed.

Lemma count_partition (results : list ProcessingResult) :
  count keep results + count manual_review results + count skip results = length results.
Proof.
  unfold count. induction results as [|r results IH]; [done|].
  cbn [List.filter length]. destruct (action r); simpl; lia.
Qed.

(** Whatever Auth0 and the file system answer, the loop of [main] runs
    to its end: it yields one result for each group, in the order of the
    groups, with the group's email and rows; and the three counts of the
    summary add up to the number of groups. *)
Theorem main_loop_yields_one_result_per_group (o : Options) (rows : list DuplicateUser)
    (w : W) :
  exists results st',
    main_loop svc getTime o (usersByEmail rows) [] 0 (fresh w) = (Resolved results, st')
    /\ (fun r => (pr_email r, duplicates r)) <$> results = usersByEmail rows
    /\ let s := summary (usersByEmail rows) results in
       actions_keep s + actions_manual_review s + actions_skip s = totalEmails s.
Proof.
  destruct (main_loop_any o (usersByEmail rows) [] 0 (fresh w))
    as (results & evs & w' & Hrun & Hgroups & _).
  exists results. eexists. split; [exact Hrun|]. split; [done|].
  cbn. rewrite count_partition, <- Hgroups. by rewrite length_fmap.
Qed.


Lemma next_multiple n t :
  S n / t = n / t + (if at_threshold (S n) t then 1 else 0).
Proof.
  destruct t as [|t]; [done|]. unfold at_threshold.
  pose proof (Nat.div_mod_eq n (S t)) as Hn.
  pose proof (Nat.mod_upper_bound n (S t) ltac:(lia)) as Hr.
  destruct (decide (n mod S t = t)) as [E|E].
  - assert (S n = S t * (n / S t + 1) + 0) as H by lia.
    rewrite <- (Nat.mod_unique (S n) (S t) _ 0 ltac:(lia) H).
    rewrite <- (Nat.div_unique (S n) (S t) _ 0 ltac:(lia) H). done.
  - assert (S n = S t * (n / S t) + S (n mod S t)) as H by lia.
    rewrite <- (Nat.mod_unique (S n) (S t) _ (S (n mod S t)) ltac:(lia) H).
    rewrite <- (Nat.div_unique (S n) (S t) _ (S (n mod S t)) ltac:(lia) H).
    simpl. lia.
Qed.

Lemma multiples_upto n t :
  length (List.filter (fun k => at_threshold k t) (seq 1 n)) = n / t.
Proof.
  induction n as [|n IH]; [by destruct t|].
  rewrite seq_S, List.filter_app, length_app, IH, next_multiple.
  cbn [List.filter Nat.add]. by destruct (at_threshold (S n) t).
Qed.

(** The loop of [main] pauses for one second after every
    [rateLimitThreshold]-th group and at no other moment: over [n]
    groups that makes [n / rateLimitThreshold] pauses (none when the
    threshold is zero). *)
Theorem main_loop_pauses (o : Options) (rows : list DuplicateUser) (w : W) :
  exists results st',
    main_loop svc getTime o (usersByEmail rows) [] 0 (fresh w) = (Resolved results, st')
    /\ sleeps (trace st')
       = replicate (length (usersByEmail rows) / rateLimitThreshold o) (Js.Num 1000).
Proof.
  destruct (main_loop_any o (usersByEmail rows) [] 0 (fresh w))
    as (results & evs & w' & Hrun & _ & _ & Hsleeps & _).
  exists results. eexists. split; [exact Hrun|]. cbn [trace fresh app].
  rewrite Hsleeps, <- multiples_upto.
  generalize (List.filter (fun n => at_threshold n (rateLimitThreshold o))
                (seq 1 (length (usersByEmail rows)))).
  intros l. induction l as [|x l IH]; [done|]. cbn. by f_equal.
Qed.

Lemma decision_coherent duplicates auth0Users :
  let d := processDuplicateUsers getTime duplicates auth0Users in
  match d_action d with
  | skip => d_userToKeep d = None /\ d_auth0User d = None
  | _ =>
      exists user a,
        d_userToKeep d = Some user /\ d_auth0User d = Some a
        /\ user ∈ duplicates /\ a ∈ auth0Users /\ auth0Sub user = Some (a0_user_id a)
  end.
Proof.
  destruct (existingUsers duplicates auth0Users) as [|u1 [|u2 rest]] eqn:E.
  - unfold processDuplicateUsers. by rewrite E.
  - unfold processDuplicateUsers. rewrite E. cbn.
    assert (u1 ∈ existingUsers duplicates auth0Users) as Hin
      by (rewrite E; apply elem_of_cons; by left).
    pose proof (proj1 (existingUsers_spec _ _ _) Hin) as [Hd _].
    apply list_elem_of_In, filter_In in Hin as [_ Hex].
    destruct (existsInAuth0_get _ _ Hex) as [a Ha].
    exists u1, a. destruct (get_auth0User_spec _ _ _ Ha). by rewrite Ha.
  - assert (2 <= length (existingUsers duplicates auth0Users)) as Hlen
      by (rewrite E; cbn; lia).
    cbv zeta. rewrite processDuplicateUsers_many by done. cbn.
    destruct (sortedUsers_head getTime duplicates auth0Users Hlen) as (user & a & Hh & Hin).
    destruct (paired_elem _ _ _ _ Hin) as (Hu & _ & Ha & Hsub).
    apply existingUsers_spec in Hu as [Hu _].
    exists user, a. by rewrite Hh.
Qed.

(** The results of the loop fit the file they come from: a result lists
    the rows of the file that have its email; a result that says [skip]
    names no user, and any other result names one row of its group and
    one of the accounts that Auth0 returned for it, the account whose id
    is the row's [auth0Sub]. *)
Theorem results_name_users_of_their_group (o : Options) (rows : list DuplicateUser)
    (w : W) :
  exists results st',
    main_loop svc getTime o (usersByEmail rows) [] 0 (fresh w) = (Resolved results, st')
    /\ Forall (fun r =>
                 duplicates r = rows_of (pr_email r) rows
                 /\ match action r with
                    | skip => userToKeep r = None /\ auth0User r = None
                    | _ =>
                        exists user a,
                          userToKeep r = Some user /\ auth0User r = Some a
                          /\ user ∈ rows /\ du_email user = pr_email r
                          /\ a ∈ auth0Users r /\ auth0Sub user = Some (a0_user_id a)
                    end) results.
Proof.
  destruct (main_loop_any o (usersByEmail rows) [] 0 (fresh w))
    as (results & evs & w' & Hrun & Hgroups & _ & _ & Hdec).
  exists results. eexists. split; [exact Hrun|].
  apply Forall_forall. intros r Hr.
  assert ((pr_email r, duplicates r) ∈ usersByEmail rows) as Hin.
  { rewrite <- Hgroups. by apply (list_elem_of_fmap_2 (fun r => (pr_email r, duplicates r))). }
  apply usersByEmail_elem in Hin as [Hrows _]. split; [done|].
  rewrite Forall_forall in Hdec. destruct (Hdec r Hr) as (Hu & Ha & Hact & _).
  pose proof (decision_coherent (duplicates r) (auth0Users r)) as Hd. cbv zeta in Hd.
  rewrite <- Hu, <- Ha, <- Hact in Hd.
  destruct (action r); [|done|].
  - destruct Hd as (user & a & ? & ? & Hin & ? & ?). exists user, a.
    rewrite Hrows in Hin. unfold rows_of in Hin.
    apply list_elem_of_In, filter_In in Hin as [Hin Hk].
    apply String.eqb_eq in Hk. split_and!; try done. by apply list_elem_of_In.
  - destruct Hd as (user & a & ? & ? & Hin & ? & ?). exists user, a.
    rewrite Hrows in Hin. unfold rows_of in Hin.
    apply list_elem_of_In, filter_In in Hin as [Hin Hk].
    apply String.eqb_eq in Hk. split_and!; try done. by apply list_elem_of_In.
Qed.

End IdentifyLoop.

(** ** identify-auth0-users: the query *)
Section Query.

Import IdentifyUsers.

(** Whatever the email, no Lucene operator stands bare in its escaped
    form, a double quote or a backslash of the email included, and the
    email can be read back from it: two emails never escape to the same
    text. *)
Theorem escape_protects_and_reads_back (email : string) :
  protected (escape email) = true /\ unescape (escape email) = email.
Proof.
  induction email as [|c rest [IHp IHu]]; [done|].
  cbn [escape]. destruct (bool_decide (c ∈ lucene_special)) eqn:E.
  - cbn [protected unescape]. rewrite Ascii.eqb_refl. by rewrite IHp, IHu.
  - assert (Ascii.eqb c "\"%char = false) as Hc.
    { apply Ascii.eqb_neq. intros ->. by vm_compute in E. }
    cbn [protected unescape]. by rewrite Hc, E, IHp, IHu.
Qed.

End Query.

(** ** identify-auth0-users: what the decision depends on *)
Section DecisionInputs.

Import IdentifyUsers.

Context (getTime : string -> Js.number).

Lemma filter_idem {A} (f : A -> bool) (l : list A) :
  List.filter f (List.filter f l) = List.filter f l.
Proof.
  induction l as [|x l IH]; [done|]. cbn [List.filter].
  destruct (f x) eqn:E; [|done]. cbn [List.filter]. by rewrite E, IH.
Qed.

(** The decision for a group is the decision for its survivors: the
    candidates that Auth0 no longer knows, wherever they stand among the
    rows, have no part in it. *)
Theorem decision_is_made_on_the_survivors
    (duplicates : list DuplicateUser) (auth0Users : list Auth0User) :
  processDuplicateUsers getTime (existingUsers duplicates auth0Users) auth0Users
  = processDuplicateUsers getTime duplicates auth0Users
  /\ forall gone,
       Forall (fun user => existsInAuth0 (auth0UserMap auth0Users) user = false) gone ->
       processDuplicateUsers getTime (gone ++ duplicates) auth0Users
       = processDuplicateUsers getTime duplicates auth0Users
       /\ processDuplicateUsers getTime (duplicates ++ gone) auth0Users
          = processDuplicateUsers getTime duplicates auth0Users.
Proof.
  split.
  - unfold processDuplicateUsers, sortedUsers, existingUsers. by rewrite !filter_idem.
  - intros gone Hgone.
    assert (List.filter (existsInAuth0 (auth0UserMap auth0Users)) gone = []) as Hnil.
    { induction Hgone as [|u l Hu _ IH]; [done|]. cbn [List.filter]. by rewrite Hu. }
    unfold processDuplicateUsers, sortedUsers, existingUsers.
    by rewrite !List.filter_app, Hnil, app_nil_r.
Qed.

Lemma NoDup_fmap_elem {A B} (f : A -> B) (l : list A) x y :
  NoDup (f <$> l) -> x ∈ l -> y ∈ l -> f x = f y -> x = y.
Proof.
  induction l as [|z l IH]; [by intros _ ?%elem_of_nil|].
  rewrite fmap_cons. intros [Hz Hl]%NoDup_cons [->|Hx]%elem_of_cons [->|Hy]%elem_of_cons E.
  - done.
  - exfalso. apply Hz. rewrite E. by apply list_elem_of_fmap_2.
  - exfalso. apply Hz. rewrite <- E. by apply list_elem_of_fmap_2.
  - by apply IH.
Qed.

Lemma auth0UserMap_lookup_NoDup auth0Users k a :
  NoDup (a0_user_id <$> auth0Users) ->
  auth0UserMap auth0Users !! k = Some a <-> a ∈ auth0Users /\ a0_user_id a = k.
Proof.
  intros Hnd. split; [apply auth0UserMap_lookup|].
  intros [Ha Hk].
  destruct (foldl_set_is_Some auth0Users ∅ k (or_intror (ex_intro _ a (conj Ha Hk))))
    as [a' Ha'].
  fold (auth0UserMap auth0Users) in Ha'. rewrite Ha'. f_equal.
  apply auth0UserMap_lookup in Ha' as [Hin' Hk'].
  apply (NoDup_fmap_elem a0_user_id auth0Users); [done|done|done|congruence].
Qed.

Lemma auth0UserMap_Permutation l l' :
  NoDup (a0_user_id <$> l) -> l ≡ₚ l' -> auth0UserMap l = auth0UserMap l'.
Proof.
  intros Hnd Hp.
  assert (NoDup (a0_user_id <$> l')) as Hnd' by (by rewrite <- Hp).
  apply map_eq. intros k. apply option_eq. intros a.
  rewrite !auth0UserMap_lookup_NoDup by done. by rewrite Hp.
Qed.

(** The accounts that Auth0 returns for an email have distinct ids; the
    order in which it lists them then has no influence on the decision. *)
Theorem decision_ignores_the_order_of_the_accounts
    (duplicates : list DuplicateUser) (auth0Users auth0Users' : list Auth0User) :
  NoDup (a0_user_id <$> auth0Users) ->
  auth0Users ≡ₚ auth0Users' ->
  processDuplicateUsers getTime duplicates auth0Users'
  = processDuplicateUsers getTime duplicates auth0Users.
Proof.
  intros Hnd Hp.
  unfold processDuplicateUsers, sortedUsers, existingUsers.
  by rewrite (auth0UserMap_Permutation _ _ Hnd Hp).
Qed.

End DecisionInputs.

(** ** The workers: what a task leaves behind *)

Ltac trace_has :=
  repeat (apply elem_of_cons; first [by left | right]).


Section Workers.

Context {W : Type} (svc : Services W) (toLowerCase : string -> string).


(** The migration worker talks to WorkOS and appends to the ledger, and
    does nothing else: no call goes to Auth0.  A task makes four calls at
    most, changes at most one WorkOS user (a creation or an update that
    succeeds), and makes no call at all for a line that does not parse. *)
Theorem migrate_worker_calls (line : Js.json) (recordNumber : nat) (w : W) :
  let outcome := MigrateUsers.processLine svc toLowerCase line recordNumber (fresh w) in
  let made := calls (trace (snd outcome)) in
  Forall (fun c =>
            is_workos c = true
            \/ exists l, c = fs_writeFile_append MigrateUsers.results_file (LedgerLine l))
    made
  /\ length made <= 4
  /\ length (List.filter changes_workos (successes (trace (snd outcome)))) <= 1
  /\ (forall error,
        MigrateUsers.Auth0ExportedUser_parse line = Rejected error ->
        made = [] /\ fst outcome = Resolved false).
Proof.
  intros outcome made. subst made outcome. unfold_promises.
  destruct (MigrateUsers.Auth0ExportedUser_parse line) as [exportedUser|error] eqn:Hparse;
    simp.
  - destruct (Js.truthy (workos_user_id exportedUser)) eqn:Ht; simp;
      explore svc;
      (split_and!;
       [ repeat (apply Forall_cons; split; [first [by left | right; by eexists]|]);
         by apply Forall_nil
       | lia | lia | by intros ? [=] ]).
  - split_and!; [by apply Forall_nil|lia|lia|done].
Qed.

(** The worker of update-auth0-users makes one call, the update of the
    Auth0 user named by the ledger line with the line's WorkOS id, and
    never a second one.  It resolves with [true] when the call succeeds
    and with [false] when it fails, except for a failure with status 429,
    which it rejects with. *)
Theorem update_auth0_worker_makes_one_call
    (line : MigrationResult) (recordNumber : nat) (w : W) :
  let update :=
    auth0_users_update (mr_auth0_user_id line)
      (Meta_workos_user_id (mr_workos_user_id line)) in
  let outcome := UpdateAuth0Users.processLine svc line recordNumber (fresh w) in
  calls (trace (snd outcome)) = [update]
  /\ world (snd outcome) = snd (svc update w)
  /\ fst outcome
     = match fst (svc update w) with
       | Resolved _ => Resolved true
       | Rejected error =>
           if isManagementApiError429 error then Rejected error else Resolved false
       end.
Proof.
  intros update outcome. subst update outcome. unfold_promises.
  explore svc; done.
Qed.

(** The password worker resolves with [true] exactly when the search
    under the lowercased email of the line answered with one user and the
    trace shows that WorkOS stored the hash of the line, as a bcrypt
    hash, for that user, named by its id.  The mark in the Auth0 metadata
    is attempted only after that, so only in a task that resolves with
    [true].  The worker never creates a WorkOS user and never writes a
    file; a line that does not parse makes it reject before any call. *)
Theorem password_task_succeeds_iff_hash_stored
    (line : Js.json) (recordNumber : nat) (w : W) :
  let outcome := ImportPasswords.processLine svc toLowerCase line recordNumber (fresh w) in
  (fst outcome = Resolved true
   <-> exists exportedUser user w1,
         ImportPasswords.Auth0ExportedUser_parse line = Resolved exportedUser
         /\ svc (workos_listUsers (toLowerCase (ImportPasswords.email exportedUser))) w
            = (Resolved [user], w1)
         /\ Called (workos_updateUser
                      {| uu_userId := id user;
                         uu_emailVerified := None;
                         uu_firstName := None;
                         uu_lastName := None;
                         uu_metadata := [];
                         uu_passwordHash := Some (ImportPasswords.passwordHash exportedUser);
                         uu_passwordHashType := Some "bcrypt" |}) None
              ∈ trace (snd outcome))
  /\ (forall id data failure,
        Called (auth0_users_update id data) failure ∈ trace (snd outcome) ->
        fst outcome = Resolved true /\ data = Meta_password_imported_to_workos)
  /\ Forall (fun c =>
               match c with
               | workos_listUsers _ | workos_updateUser _ | auth0_users_update _ _ => True
               | _ => False
               end) (calls (trace (snd outcome)))
  /\ (forall error,
        ImportPasswords.Auth0ExportedUser_parse line = Rejected error ->
        outcome = (Rejected error, fresh w)).
Proof.
  intros outcome. subst outcome. unfold ImportPasswords.processLine.
  destruct (ImportPasswords.Auth0ExportedUser_parse line) as [exportedUser|error] eqn:Hparse.
  - unfold_promises.
    explore svc;
      (split_and!;
       [ split;
         [ first [done | intros _; eexists _, _, _;
                         split_and!; [reflexivity|eassumption|trace_has]]
         | intros (exportedUser' & user & w1' & [= <-] & Hlist & H);
           first [congruence | in_trace H; done] ]
       | intros ? ? ? H; in_trace H; by injection H as _ -> _
       | repeat (apply Forall_cons; split; [done|]); by apply Forall_nil
       | by intros ? [=] ]).
  - unfold throw. simp. split_and!.
    + split; [done|]. by intros (? & ? & ? & [=] & _).
    + intros ? ? ? H. by apply elem_of_nil in H.
    + by apply Forall_nil.
    + by intros ? [= ->].
Qed.

(** The migration worker rejects exactly when the last call it made
    failed, and then with the error of that call: a failure of the first
    call that is no rate limit is followed by the search by email, and
    every other failure ends the task. *)
Theorem migrate_worker_rejects_with_its_last_failure
    (line : Js.json) (recordNumber : nat) (w : W) (error : exn) :
  let outcome := MigrateUsers.processLine svc toLowerCase line recordNumber (fresh w) in
  fst outcome = Rejected error
  <-> exists c, last (trace (snd outcome)) = Some (Called c (Some error)).
Proof.
  intros outcome. subst outcome. unfold_promises.
  destruct (MigrateUsers.Auth0ExportedUser_parse line) as [exportedUser|parseError];
    simp.
  - destruct (Js.truthy (workos_user_id exportedUser)) eqn:Ht; simp;
      explore svc;
      (split;
       [ first [ by intros [=] | intros [= <-]; by eexists ]
       | intros (c & H); cbn in H; by simplify_eq ]).
  - split; [by intros [=]|]. intros (c & H). cbn in H. by simplify_eq.
Qed.

End Workers.

(** ** update-workos-ids: the mappings and the statements *)
Section Statements.

Import UpdateWorkosIds.

Lemma complete_Some row :
  complete row = true
  <-> exists k v, wm_auth0_user_id row = Some k /\ wm_workos_user_id row = Some v
                  /\ k <> "" /\ v <> "".
Proof.
  unfold complete. rewrite andb_true_iff. split.
  - intros [(k & Hk & ?)%truthy_Some (v & Hv & ?)%truthy_Some]. by exists k, v.
  - intros (k & v & -> & -> & ? & ?). by destruct k, v.
Qed.

(** The WorkOS id that the map gives for an Auth0 id is the one of the
    last row of the file that names this Auth0 id among the rows that
    have both ids (an empty cell is no id); the map has no entry when no
    such row exists. *)
Theorem loadWorkOSMappings_gives_the_last_complete_row
    (rows : list WorkOSMapping) (k v : string) :
  loadWorkOSMappings rows !! k = Some v
  <-> exists before row after,
        rows = before ++ row :: after
        /\ wm_auth0_user_id row = Some k /\ wm_workos_user_id row = Some v
        /\ k <> "" /\ v <> ""
        /\ Forall (fun later => complete later = true -> wm_auth0_user_id later <> Some k)
             after.
Proof.
  unfold loadWorkOSMappings. induction rows as [|x rows IH] using rev_ind.
  - cbn [foldl]. rewrite lookup_empty. split; [done|].
    intros (before & row & after & H & _). by destruct before.
  - rewrite foldl_app. cbn [foldl].
    destruct (complete x) eqn:Ex.
    + destruct (proj1 (complete_Some x) Ex) as (kx & vx & Hkx & Hvx & Hnk & Hnv).
      rewrite Hkx, Hvx. cbn [Js.nullish].
      destruct (decide (kx = k)) as [->|Hne].
      * rewrite lookup_insert_eq. split.
        -- intros [= <-]. exists rows, x, []. split_and!; try done; by apply Forall_nil.
        -- intros (before & row & after & H & Hk & Hv & _ & _ & Hafter).
           destruct after as [|y after _] using rev_ind.
           ++ apply app_inj_tail in H as [_ ->]. congruence.
           ++ rewrite app_comm_cons, app_assoc in H. apply app_inj_tail in H as [_ ->].
              rewrite Forall_app, Forall_singleton in Hafter.
              destruct Hafter as [_ Hy]. by destruct (Hy Ex).
      * rewrite lookup_insert_ne by done. rewrite IH. split.
        -- intros (before & row & after & -> & Hk & Hv & ? & ? & Hafter).
           exists before, row, (after ++ [x]).
           rewrite <- app_assoc. split_and!; try done.
           rewrite Forall_app, Forall_singleton. split; [done|].
           intros _. congruence.
        -- intros (before & row & after & H & Hk & Hv & ? & ? & Hafter).
           destruct after as [|y after _] using rev_ind.
           ++ apply app_inj_tail in H as [_ ->]. congruence.
           ++ rewrite app_comm_cons, app_assoc in H. apply app_inj_tail in H as [-> ->].
              rewrite Forall_app in Hafter. destruct Hafter as [Hafter _].
              by exists before, row, after.
    + rewrite IH. split.
      * intros (before & row & after & -> & Hk & Hv & ? & ? & Hafter).
        exists before, row, (after ++ [x]).
        rewrite <- app_assoc. split_and!; try done.
        rewrite Forall_app, Forall_singleton. split; [done|].
        intros Hx. congruence.
      * intros (before & row & after & H & Hk & Hv & Hnk & Hnv & Hafter).
        destruct after as [|y after _] using rev_ind.
        -- apply app_inj_tail in H as [_ <-].
           assert (complete x = true) as Hx; [|congruence].
           apply complete_Some. by exists k, v.
        -- rewrite app_comm_cons, app_assoc in H. apply app_inj_tail in H as [-> ->].
           rewrite Forall_app in Hafter. destruct Hafter as [Hafter _].
           by exists before, row, after.
Qed.

Lemma loadWorkOSMappings_truthy rows k :
  Js.truthy (loadWorkOSMappings rows !! k)
  = bool_decide (is_Some (loadWorkOSMappings rows !! k)).
Proof.
  destruct (loadWorkOSMappings rows !! k) as [v|] eqn:E; [|done].
  assert (v <> "") as Hv.
  { unfold loadWorkOSMappings in E. revert E.
    induction rows as [|x rows IH] using rev_ind; [cbn [foldl]; by rewrite lookup_empty|].
    rewrite foldl_app. cbn [foldl]. destruct (complete x) eqn:Ex; [|done].
    destruct (proj1 (complete_Some x) Ex) as (kx & vx & Hkx & Hvx & Hnk & Hnv).
    rewrite Hkx, Hvx. cbn [Js.nullish].
    destruct (decide (kx = k)) as [->|Hne].
    - rewrite lookup_insert_eq. by intros [= <-].
    - by rewrite lookup_insert_ne. }
  rewrite bool_decide_eq_true_2 by (by eexists). by destruct v.
Qed.

Context (parseInt : string -> Js.number) (toString : Z -> string).

Lemma sql_truthy workOSUserId userToKeep :
  Js.truthy (Some (sql parseInt toString workOSUserId userToKeep)) = true.
Proof. done. Qed.

Lemma main_step_statement rows p result :
  let p' := main_step parseInt toString (loadWorkOSMappings rows) p result in
  let new := option_list (statement_for parseInt toString (loadWorkOSMappings rows) result) in
  sqlStatements p' = sqlStatements p ++ new
  /\ processedCount p' = S (processedCount p)
  /\ sqlGeneratedCount p' = sqlGeneratedCount p + length new.
Proof.
  unfold main_step, statement_for, generateSQLUpdate.
  destruct (bool_decide (action result = keep)); cbn [andb];
    [|by rewrite app_nil_r, Nat.add_0_r].
  destruct (userToKeep result) as [user|]; cbn [andb];
    [|rewrite bool_decide_eq_false_2 by (by intros [? ?]);
      by rewrite app_nil_r, Nat.add_0_r].
  rewrite (bool_decide_eq_true_2 (is_Some (Some user))) by (by eexists). cbn [andb].
  destruct (auth0User result) as [account|]; cbn [andb];
    [|rewrite bool_decide_eq_false_2 by (by intros [? ?]);
      by rewrite app_nil_r, Nat.add_0_r].
  rewrite (bool_decide_eq_true_2 (is_Some (Some account))) by (by eexists).
  cbn [option_bind mbind]. rewrite loadWorkOSMappings_truthy.
  destruct (loadWorkOSMappings rows !! a0_user_id account) as [v|] eqn:E.
  - rewrite bool_decide_eq_true_2 by (by eexists). cbn [negb Js.nullish].
    rewrite sql_truthy. cbn. split_and!; [done|done|lia].
  - rewrite bool_decide_eq_false_2 by (by intros [? ?]). cbn.
    by rewrite app_nil_r, Nat.add_0_r.
Qed.

(** The output of update-workos-ids: after the four lines of the header,
    one statement for each result that says [keep], names the user kept
    and its Auth0 account, and whose account the mapping file knows, in
    the order of the results, and nothing for the other results.  Every
    result is counted as processed, and the count of statements is the
    number of statements in the output. *)
Theorem main_statements (rows : list WorkOSMapping) (results : list ProcessingResult)
    (generatedOn : string) :
  let out := main parseInt toString rows results generatedOn in
  sqlStatements out
  = sqlStatements (main_init generatedOn)
      ++ omap (statement_for parseInt toString (loadWorkOSMappings rows)) results
  /\ processedCount out = length results
  /\ sqlGeneratedCount out + 4 = length (sqlStatements out)
  /\ sqlGeneratedCount out <= processedCount out.
Proof.
  unfold main.
  assert (forall p,
            let out := foldl (main_step parseInt toString (loadWorkOSMappings rows)) p results in
            let new := omap (statement_for parseInt toString (loadWorkOSMappings rows)) results in
            sqlStatements out = sqlStatements p ++ new
            /\ processedCount out = processedCount p + length results
            /\ sqlGeneratedCount out = sqlGeneratedCount p + length new
            /\ length new <= length results) as H.
  { induction results as [|r results IH]; intros p.
    - cbn. by rewrite app_nil_r, !Nat.add_0_r.
    - cbn [foldl].
      destruct (IH (main_step parseInt toString (loadWorkOSMappings rows) p r))
        as (Hs & Hp & Hg & Hl).
      destruct (main_step_statement rows p r) as (Hs1 & Hp1 & Hg1).
      cbv zeta. rewrite Hs, Hp, Hg, Hs1, Hp1, Hg1.
      destruct (statement_for parseInt toString (loadWorkOSMappings rows) r) eqn:E;
        cbn; rewrite ?E, <- ?app_assoc, ?app_nil_r; cbn;
        split_and!; try done; try lia. }
  destruct (H (main_init generatedOn)) as (Hs & Hp & Hg & Hl).
  cbv zeta. rewrite Hs, Hp, Hg, length_app. cbn. split_and!; try done; lia.
Qed.

End Statements.

(** ** migrate-auth0-users: the counters of [main] and the tasks in the queue *)
Section MigrationCounters.

Import PQueue MigrateUsers.

Lemma tasks_tryToStartAnother q : tasks (tryToStartAnother q) = tasks q.
Proof.
  unfold tryToStartAnother, tasks. destruct (waiting q) as [|t rest] eqn:E; [by rewrite E|].
  destruct (negb (isPaused q) && (activeCount q <? concurrency q)%nat);
    cbn [running waiting]; rewrite ?E; [by rewrite <- app_assoc|done].
Qed.

Lemma tasks_add t q : tasks (add t q) = tasks q ++ [t].
Proof. unfold add. rewrite tasks_tryToStartAnother. unfold tasks. cbn. by rewrite app_assoc. Qed.

Lemma tasks_next t q : tasks (next t q) = remove t (running q) ++ waiting q.
Proof. unfold next. by rewrite tasks_tryToStartAnother. Qed.

Lemma tasks_pause q : tasks (pause q) = tasks q.
Proof. done. Qed.

Lemma tasks_dispatch n q : tasks (dispatch n q) = tasks q.
Proof.
  revert q. induction n as [|n IH]; intros q; [done|].
  cbn [dispatch]. by rewrite IH, tasks_tryToStartAnother.
Qed.

Lemma tasks_start q : tasks (start q) = tasks q.
Proof. unfold start. destruct (isPaused q); [|done]. by rewrite tasks_dispatch. Qed.

Lemma remove_elem t l x : x ∈ remove t l -> x ∈ l.
Proof.
  induction l as [|y l IH]; [done|]. cbn [remove].
  destruct (y =? t)%nat; rewrite !elem_of_cons; [by right|]. intros [->|H]; [by left|].
  right. by apply IH.
Qed.

Lemma remove_NoDup t l : NoDup l -> NoDup (remove t l) /\ t ∉ remove t l.
Proof.
  induction l as [|y l IH]; [intros _; split; [apply NoDup_nil_2|by intros ?%elem_of_nil]|].
  intros [Hy Hl]%NoDup_cons. cbn [remove].
  destruct (Nat.eqb_spec y t) as [->|Hne]; [done|].
  destruct (IH Hl) as [Hnd Hnotin]. split.
  - apply NoDup_cons. split; [|done]. intros H. apply Hy. by eapply remove_elem.
  - intros [->|H]%elem_of_cons; [done|]. by apply Hnotin.
Qed.

Lemma remove_one t l : t ∈ l -> S (length (remove t l)) = length l.
Proof.
  induction l as [|y l IH]; [by intros ?%elem_of_nil|]. cbn [remove].
  destruct (Nat.eqb_spec y t) as [->|Hne]; [done|].
  intros [->|H]%elem_of_cons; [done|]. cbn [length]. by rewrite IH.
Qed.

(** What [main] keeps true of a migration of [M] records that skips the
    first [skip]. *)
Lemma step_counters wait N M skip r h r' :
  (recordCount r + unread r = M
   /\ NoDup (tasks (queue r))
   /\ (forall t, t ∈ tasks (queue r) -> skip <= t < recordCount r)
   /\ completedCount r + length (tasks (queue r)) <= recordCount r - skip) ->
  step wait N skip r h = Some r' ->
  recordCount r' + unread r' = M
  /\ NoDup (tasks (queue r'))
  /\ (forall t, t ∈ tasks (queue r') -> skip <= t < recordCount r')
  /\ completedCount r' + length (tasks (queue r')) <= recordCount r' - skip.
Proof.
  intros (Hread & Hnd & Hbound & Hcount). unfold step.
  destruct (unhandled r); [done|].
  destruct h as [|recordNumber outcome|].
  - destruct (unread r) as [|unread'] eqn:Hu; [done|].
    destruct (wait (queue r) N); [|done].
    intros [= <-]. destruct (Nat.leb_spec skip (recordCount r)) as [Hskip|Hskip];
      cbn [queue unread recordCount completedCount enqueueTask with_queue].
    + rewrite tasks_add, length_app. cbn [length]. split_and!; [lia| | |lia].
      * apply NoDup_app. split_and!; [done| |apply NoDup_singleton].
        intros t Ht [->|H]%elem_of_cons; [|by apply elem_of_nil in H].
        specialize (Hbound _ Ht). lia.
      * intros t [Ht|[->|Ht]%elem_of_cons]%elem_of_app;
          [specialize (Hbound _ Ht); lia|lia|by apply elem_of_nil in Ht].
    + split_and!; [lia|done| |lia]. intros t Ht. specialize (Hbound _ Ht). lia.
  - case_bool_decide as Hin; [|done].
    destruct (remove_NoDup recordNumber (running (queue r))) as [Hnd1 Hnotin];
      [by apply NoDup_app in Hnd as (? & _ & _)|].
    pose proof (remove_one _ _ Hin) as Hlen.
    assert (NoDup (tasks (next recordNumber (queue r)))) as Hnd'.
    { rewrite tasks_next. apply NoDup_app in Hnd as (_ & Hdisj & Hw).
      apply NoDup_app. split_and!; [done| |done].
      intros t Ht. apply Hdisj. by eapply remove_elem. }
    assert (forall t, t ∈ tasks (next recordNumber (queue r)) -> t ∈ tasks (queue r)) as Hsub.
    { intros t. rewrite tasks_next. unfold tasks. rewrite !elem_of_app.
      intros [Ht|Ht]; [left; by eapply remove_elem|by right]. }
    assert (S (length (tasks (next recordNumber (queue r)))) = length (tasks (queue r)))
      as Hlen'.
    { rewrite tasks_next. unfold tasks. rewrite !length_app. lia. }
    destruct outcome as [successful|error]; intros [= <-].
    + cbn [onFulfilled queue unread recordCount completedCount with_queue].
      split_and!; [done|done|by intros t Ht%Hsub; apply Hbound|].
      destruct successful; lia.
    + destruct error;
        cbn [onRejected enqueueTask queue unread recordCount completedCount with_queue];
        try (split_and!; [done|done|by intros t Ht%Hsub; apply Hbound|lia]).
      rewrite tasks_add, tasks_pause, length_app. cbn [length]. split_and!; [done| | |lia].
      * apply NoDup_app. split_and!; [done| |apply NoDup_singleton].
        intros t Ht [Heq|H]%elem_of_cons; [subst t|by apply elem_of_nil in H].
        rewrite tasks_next in Ht. apply elem_of_app in Ht as [Ht|Ht]; [done|].
        apply NoDup_app in Hnd as (_ & Hdisj & _). by apply (Hdisj recordNumber).
      * intros t [Ht|[->|Ht]%elem_of_cons]%elem_of_app;
          [by apply Hbound, Hsub| |by apply elem_of_nil in Ht].
        apply Hbound. unfold tasks. apply elem_of_app. by left.
  - destruct (sleeping r); [done|]. intros [= <-].
    cbn [queue unread recordCount completedCount]. by rewrite tasks_start.
Qed.

(** Throughout a migration of [M] records, whatever the order in which
    lines arrive, tasks settle and pauses end: the records counted and the
    lines not yet read make [M]; a record is in the queue once at most,
    also after a rate limit has put it back, and only if it was read and
    not skipped; and the records counted as imported, together with those
    still in the queue, are no more than the records read beyond the
    skipped ones, so the closing message never reports more imports than
    records. *)
Theorem main_counts_each_record_once
    (wait : Queue -> nat -> bool) (N M skip : nat) (r : Run) :
  reachable wait N M skip r ->
  recordCount r + unread r = M
  /\ NoDup (tasks (queue r))
  /\ (forall t, t ∈ tasks (queue r) -> skip <= t < recordCount r)
  /\ completedCount r + length (tasks (queue r)) <= recordCount r - skip
  /\ completedCount r <= recordCount r.
Proof.
  intros Hr.
  assert (recordCount r + unread r = M
          /\ NoDup (tasks (queue r))
          /\ (forall t, t ∈ tasks (queue r) -> skip <= t < recordCount r)
          /\ completedCount r + length (tasks (queue r)) <= recordCount r - skip) as H.
  { induction Hr as [|r h r' _ IH Hstep].
    - cbn. split_and!; [lia|apply NoDup_nil_2|by intros ? ?%elem_of_nil|lia].
    - by eapply step_counters. }
  destruct H as (? & ? & ? & ?). split_and!; try done. lia.
Qed.

Lemma isPaused_tryToStartAnother q : isPaused (tryToStartAnother q) = isPaused q.
Proof.
  unfold tryToStartAnother. destruct (waiting q); [done|].
  by destruct (negb (isPaused q) && (activeCount q <? concurrency q)%nat).
Qed.

Lemma isPaused_dispatch n q : isPaused (dispatch n q) = isPaused q.
Proof.
  revert q. induction n as [|n IH]; intros q; [done|].
  cbn [dispatch]. by rewrite IH, isPaused_tryToStartAnother.
Qed.

Lemma isPaused_start q : isPaused (start q) = false.
Proof.
  unfold start. destruct (isPaused q) eqn:E; [|done]. by rewrite isPaused_dispatch.
Qed.

(** Throughout a migration, whenever the queue is paused the handler of
    a rate limit is asleep and will start the queue when it wakes: no
    sequence of rate limits, settlements and wake-ups leaves the queue
    paused with nobody to start it again. *)
Theorem paused_queue_has_a_wake_up_pending
    (wait : Queue -> nat -> bool) (N M skip : nat) (r : Run) :
  reachable wait N M skip r ->
  isPaused (queue r) = true ->
  exists seconds rest, sleeping r = seconds :: rest.
Proof.
  intros Hr. induction Hr as [|r h r' _ IH Hstep]; [done|].
  revert Hstep. unfold step. destruct (unhandled r); [done|].
  destruct h as [|recordNumber outcome|].
  - destruct (unread r); [done|]. destruct (wait (queue r) N); [|done].
    intros [= <-]. destruct (skip <=? recordCount r)%nat;
      cbn [queue sleeping enqueueTask with_queue]; [|done].
    unfold add. by rewrite isPaused_tryToStartAnother.
  - case_bool_decide; [|done].
    destruct outcome as [successful|error]; intros [= <-].
    + cbn [onFulfilled queue sleeping with_queue]. unfold next.
      by rewrite isPaused_tryToStartAnother.
    + destruct error; cbn [onRejected enqueueTask queue sleeping with_queue];
        try (unfold next; by rewrite isPaused_tryToStartAnother).
      intros _. destruct (sleeping r); by eexists _, _.
  - destruct (sleeping r); [done|]. intros [= <-]. cbn [queue sleeping].
    by rewrite isPaused_start.
Qed.

End MigrationCounters.

(** * Worked examples *)

Example parse_line_ada :
  MigrateUsers.Auth0ExportedUser_parse line_ada = Resolved exported_ada.
Proof. reflexivity. Qed.

Example parse_line_grace :
  MigrateUsers.Auth0ExportedUser_parse line_grace = Resolved exported_grace.
Proof. reflexivity. Qed.

Example parse_rejects_a_number :
  MigrateUsers.Auth0ExportedUser_parse (Js.JNumber 7) = Rejected ZodError.
Proof. reflexivity. Qed.

Example toLowerCase_email : toLowerCase_ascii "Ada@Example.com" = "ada@example.com".
Proof. reflexivity. Qed.

(** ** C4, C5, C10: the worker *)

Lemma C4_witness :
  Js.truthy (workos_user_id exported_grace) = true
  /\ MigrateUsers.findOrCreateUser grace_exists toLowerCase_ascii exported_grace (fresh tt)
     = (Resolved {| MigrateUsers.workOsUser := Some grace; MigrateUsers.created := false |},
        {| world := tt;
           trace := [Called (workos_getUser "user_01GRACE") None;
                     Called (workos_updateUser
                               {| uu_userId := "user_01GRACE";
                                  uu_emailVerified := Some true;
                                  uu_firstName := Some "Grace";
                                  uu_lastName := None;
                                  uu_metadata := [("auth0Sub", "auth0|grace");
                                                  ("region", "europe-west1")];
                                  uu_passwordHash := None;
                                  uu_passwordHashType := None |}) None] |}).
Proof.
  split; [reflexivity|].
  destruct (C4_record_with_target_id_is_updated grace_exists toLowerCase_ascii
              exported_grace tt eq_refl)
    as (_ & _ & _ & Hupdate).
  destruct (Hupdate grace tt eq_refl) as [Htrace Houtcome].
  specialize (Houtcome grace eq_refl).
  destruct (MigrateUsers.findOrCreateUser grace_exists toLowerCase_ascii exported_grace
              (fresh tt))
    as [r [[] tr]].
  simpl in *. by subst.
Defined.


Lemma C10_witness :
  MigrateUsers.findOrCreateUser grace_id_is_stale toLowerCase_ascii exported_grace (fresh tt)
  = (Resolved {| MigrateUsers.workOsUser := Some grace; MigrateUsers.created := false |},
     {| world := tt;
        trace := [Called (workos_getUser "user_01GRACE") (Some not_found);
                  Called (workos_listUsers "grace@example.com") None;
                  Called (workos_updateUser
                            {| uu_userId := "user_01GRACE";
                               uu_emailVerified := Some true;
                               uu_firstName := Some "Grace";
                               uu_lastName := None;
                               uu_metadata := [("auth0Sub", "auth0|grace");
                                               ("region", "europe-west1")];
                               uu_passwordHash := None;
                               uu_passwordHashType := None |}) None] |}).
Proof.
  apply (proj1 (C10_fetch_failure_falls_back_to_email_search grace_id_is_stale
                  toLowerCase_ascii
                  line_grace 0 exported_grace tt tt tt not_found [grace]
                  eq_refl eq_refl eq_refl eq_refl eq_refl) grace eq_refl).
Defined.

(** C10 (the claim as stated fails): Grace's record has a WorkOS id, the
    fetch succeeds and the update fails with an error that is not a rate
    limit.  The worker rejects with that error at once; no search by
    email is made, although it would have found her. *)
Lemma C10_update_failure_is_not_caught :
  MigrateUsers.findOrCreateUser grace_cannot_be_updated toLowerCase_ascii exported_grace
    (fresh tt)
  = (Rejected unprocessable,
     {| world := tt;
        trace := [Called (workos_getUser "user_01GRACE") None;
                  Called (workos_updateUser
                            {| uu_userId := "user_01GRACE";
                               uu_emailVerified := Some true;
                               uu_firstName := Some "Grace";
                               uu_lastName := None;
                               uu_metadata := [("auth0Sub", "auth0|grace");
                                               ("region", "europe-west1")];
                               uu_passwordHash := None;
                               uu_passwordHashType := None |})
                    (Some unprocessable)] |})
  /\ isRateLimitExceededException unprocessable = false
  /\ fst (grace_cannot_be_updated (workos_listUsers "grace@example.com") tt)
     = Resolved [grace].
Proof. split_and!; reflexivity. Qed.

(** A record with a WorkOS id, through [processLine]: the ledger line says
    [created: false]. *)
Example processLine_updates_grace :
  MigrateUsers.processLine grace_exists toLowerCase_ascii line_grace 4 (fresh tt)
  = (Resolved true,
     {| world := tt;
        trace := [Called (workos_getUser "user_01GRACE") None;
                  Called (workos_updateUser
                            (MigrateUsers.update_payload exported_grace grace)) None;
                  Called (fs_writeFile_append "out/migration-results.jsonl"
                            (LedgerLine {| mr_workos_user_id := "user_01GRACE";
                                           mr_auth0_user_id := "auth0|grace";
                                           mr_created := false |})) None;
                  Console stdout
                    "(4) Updated Auth0 user auth0|grace as WorkOS user user_01GRACE"
                    None] |}).
Proof. reflexivity. Qed.

Example update_payload_grace :
  MigrateUsers.update_payload exported_grace grace
  = {| uu_userId := "user_01GRACE"; uu_emailVerified := Some true;
       uu_firstName := Some "Grace"; uu_lastName := None;
       uu_metadata := [("auth0Sub", "auth0|grace"); ("region", "europe-west1")];
       uu_passwordHash := None; uu_passwordHashType := None |}.
Proof. reflexivity. Qed.

(** A line that is not an exported user is logged and skipped. *)
Example processLine_skips_a_malformed_line :
  MigrateUsers.processLine offline toLowerCase_ascii (Js.JString "not-json") 1 (fresh tt)
  = (Resolved false,
     {| world := tt;
        trace := [Console stderr "(1) Error parsing user: " (Some ZodError)] |}).
Proof. reflexivity. Qed.

(** The same line migrated twice into a directory that remembers: the
    first run creates the user, the second finds it by email and updates
    it; the ledger holds one line for each run, with the same WorkOS id. *)
Example migrating_a_line_twice :
  (let* first := MigrateUsers.processLine directory toLowerCase_ascii line_ada 0 in
   let* second := MigrateUsers.processLine directory toLowerCase_ascii line_ada 1 in
   ret (first, second)) (fresh [])
  = (Resolved (true, true),
     {| world := [{| id := "user_0"; user_email := "ada@example.com";
                     emailVerified := true |}];
        trace :=
          [Called (workos_createUser (MigrateUsers.create_payload exported_ada)) None;
           Called (fs_writeFile_append "out/migration-results.jsonl"
                     (LedgerLine {| mr_workos_user_id := "user_0";
                                    mr_auth0_user_id := "auth0|ada";
                                    mr_created := true |})) None;
           Console stdout "(0) Imported Auth0 user auth0|ada as WorkOS user user_0" None;
           Called (workos_createUser (MigrateUsers.create_payload exported_ada))
             (Some conflict);
           Called (workos_listUsers "ada@example.com") None;
           Called (workos_updateUser
                     (MigrateUsers.update_payload exported_ada
                        {| id := "user_0"; user_email := "ada@example.com";
                           emailVerified := true |})) None;
           Called (fs_writeFile_append "out/migration-results.jsonl"
                     (LedgerLine {| mr_workos_user_id := "user_0";
                                    mr_auth0_user_id := "auth0|ada";
                                    mr_created := false |})) None;
           Console stdout "(1) Updated Auth0 user auth0|ada as WorkOS user user_0" None]
     |}).
Proof. vm_compute. reflexivity. Qed.

Example ledger_after_migrating_twice :
  ledger (trace (snd ((let* first := MigrateUsers.processLine directory toLowerCase_ascii line_ada 0 in
                       MigrateUsers.processLine directory toLowerCase_ascii line_ada 1) (fresh []))))
  = [{| mr_workos_user_id := "user_0"; mr_auth0_user_id := "auth0|ada";
        mr_created := true |};
     {| mr_workos_user_id := "user_0"; mr_auth0_user_id := "auth0|ada";
        mr_created := false |}].
Proof. vm_compute. reflexivity. Qed.

(** ** C6: rate limits *)

(** C6 (the claim as stated fails): in the password worker Auth0 answers
    the metadata update with status 429.  The worker logs that it cannot
    update the metadata and resolves with the user: the rate limit does
    not leave the worker. *)
Lemma C6_auth0_rate_limit_absorbed_by_password_worker :
  ImportPasswords.updateUserPassword auth0_throttles toLowerCase_ascii password_ada (fresh tt)
  = (Resolved (Some ada),
     {| world := tt;
        trace := [Called (workos_listUsers "ada@example.com") None;
                  Called (workos_updateUser
                            (ImportPasswords.password_payload "user_01ADA" password_ada))
                    None;
                  Called (auth0_users_update "auth0|ada" Meta_password_imported_to_workos)
                    (Some (ManagementApiError 429 (Some "30")));
                  Console stderr
                    "Can't update metadata for user auth0|ada with error Ada@Example.com"
                    None] |})
  /\ isManagementApiError429 (ManagementApiError 429 (Some "30")) = true.
Proof. split; reflexivity. Qed.

(** A rate limit met inside the [catch] block of [findOrCreateUser], at
    the search, leaves the migration worker. *)
Example migrate_rethrows_a_throttled_search :
  MigrateUsers.processLine workos_throttles_search toLowerCase_ascii line_ada 2 (fresh tt)
  = (Rejected (RateLimitExceededException (Some 2%Z)),
     {| world := tt;
        trace := [Called (workos_createUser (MigrateUsers.create_payload exported_ada))
                    (Some conflict);
                  Called (workos_listUsers "ada@example.com")
                    (Some (RateLimitExceededException (Some 2%Z)))] |}).
Proof. reflexivity. Qed.

(** So does one met at the update that is not awaited. *)
Example migrate_rethrows_a_throttled_update :
  fst (MigrateUsers.processLine workos_throttles_update toLowerCase_ascii line_grace 2 (fresh tt))
  = Rejected (RateLimitExceededException None).
Proof. reflexivity. Qed.

Example passwords_rethrows_a_throttled_update :
  ImportPasswords.updateUserPassword workos_throttles_update toLowerCase_ascii password_ada (fresh tt)
  = (Rejected (RateLimitExceededException None),
     {| world := tt;
        trace := [Called (workos_listUsers "ada@example.com") None;
                  Called (workos_updateUser
                            (ImportPasswords.password_payload "user_01ADA" password_ada))
                    (Some (RateLimitExceededException None))] |}).
Proof. reflexivity. Qed.

(** Another failure of WorkOS is absorbed by the password worker, which
    resolves with [undefined]. *)
Example passwords_absorbs_other_failures :
  fst (ImportPasswords.updateUserPassword offline toLowerCase_ascii password_ada (fresh tt)) = Resolved None.
Proof. reflexivity. Qed.

(** The same answer from Auth0 in the update-auth0 worker is rethrown. *)
Example update_auth0_rethrows_429 :
  UpdateAuth0Users.processLine auth0_throttles
    {| mr_workos_user_id := "user_01ADA"; mr_auth0_user_id := "auth0|ada";
       mr_created := true |} 3 (fresh tt)
  = (Rejected (ManagementApiError 429 (Some "30")),
     {| world := tt;
        trace := [Called (auth0_users_update "auth0|ada" (Meta_workos_user_id "user_01ADA"))
                    (Some (ManagementApiError 429 (Some "30")))] |}).
Proof. reflexivity. Qed.

(** ** C1: pauses *)

(** With a header the pause is the header's number plus one. *)
Example update_auth0_pause_with_header :
  UpdateAuth0Users.retryAfter (fun _ => Js.Num 30) (Some "30") = Js.Num 31.
Proof. reflexivity. Qed.

Example migrate_pause_without_retryAfter : MigrateUsers.retryAfter None = 61%Z.
Proof. reflexivity. Qed.

Example migrate_pause_with_retryAfter : MigrateUsers.retryAfter (Some 5%Z) = 6%Z.
Proof. reflexivity. Qed.

(** ** C2, C7, C9: decisions *)


(** Three candidates, two of them still in Auth0 with 5 and 10 logins:
    manual review, suggesting the one with 10. *)
Example suggestion_by_login_count :
  IdentifyUsers.processDuplicateUsers clock [u1; u2; u3] accounts_5_10
  = {| IdentifyUsers.d_userToKeep := Some u2;
       IdentifyUsers.d_auth0User :=
         Some (account "auth0|2" (Some 10%Z) (Some "2024-11-20T09:15:00.000Z"));
       IdentifyUsers.d_action := manual_review;
       IdentifyUsers.d_reason := "2 users exist in Auth0 - manual review required";
       IdentifyUsers.d_requiresManualReview := Some true |}.
Proof. reflexivity. Qed.


(** In that group every survivor has a last login, the comparison is
    consistent, and the suggested candidate outranks the survivor that
    precedes it. *)
Example suggestion_outranks_what_precedes :
  consistent clock (paired [u1; u2; u3] accounts_5_10)
  /\ paired [u1; u2; u3] accounts_5_10
     = [(u1, account "google-oauth2|1" (Some 5%Z) (Some "2025-03-01T12:00:00.000Z"))]
       ++ (u2, account "auth0|2" (Some 10%Z) (Some "2024-11-20T09:15:00.000Z")) :: []
  /\ outranks clock
       (u2, account "auth0|2" (Some 10%Z) (Some "2024-11-20T09:15:00.000Z"))
       (u1, account "google-oauth2|1" (Some 5%Z) (Some "2025-03-01T12:00:00.000Z")).
Proof.
  split_and!.
  - apply consistent_all_timed. intros s Hs.
    assert (s ∈ [(u1, account "google-oauth2|1" (Some 5%Z) (Some "2025-03-01T12:00:00.000Z"));
                 (u2, account "auth0|2" (Some 10%Z) (Some "2024-11-20T09:15:00.000Z"))])
      as Hs' by exact Hs.
    apply elem_of_cons in Hs' as [->|Hs']; [by eexists|].
    apply elem_of_cons in Hs' as [->|Hs']; [by eexists|].
    by apply elem_of_nil in Hs'.
  - reflexivity.
  - left. vm_compute. reflexivity.
Qed.

(** Three survivors with five logins each, the second without a last
    login: it ties with the first and with the third, while the third
    outranks the first.  The comparison is not consistent, and the
    standard leaves the suggestion for such a group to the engine. *)
Example mixed_group_is_not_consistent :
  let w0 := (u1, account "google-oauth2|1" (Some 5%Z) (Some "2024-11-20T09:15:00.000Z")) in
  let w1 := (u2, account "auth0|2" (Some 5%Z) None) in
  let w2 := (u3, account "github|3" (Some 5%Z) (Some "2025-03-01T12:00:00.000Z")) in
  paired [u1; u2; u3] [snd w0; snd w1; snd w2] = [w0; w1; w2]
  /\ IdentifyUsers.comparefn clock w1 w0 = Js.Num 0
  /\ IdentifyUsers.comparefn clock w2 w1 = Js.Num 0
  /\ outranks clock w2 w0
  /\ ~ consistent clock [w0; w1; w2].
Proof.
  intros w0 w1 w2.
  assert (outranks clock w2 w0) as H20.
  { right. split; [done|]. eexists _, _. split_and!; [reflexivity|reflexivity|lia]. }
  split_and!; [reflexivity|reflexivity|reflexivity|exact H20|].
  intros Hcons. apply (Hcons w0 w1 w2); [set_solver|set_solver|set_solver| | |exact H20].
  - intros [H|(_ & ? & ? & [=] & _)]. by vm_compute in H.
  - intros [H|(_ & ? & ? & _ & [=] & _)]. by vm_compute in H.
Qed.

(** Both last logins, equal login counts: the later login wins although
    it comes second in the input. *)
Example suggestion_by_last_login :
  IdentifyUsers.d_userToKeep
    (IdentifyUsers.processDuplicateUsers clock [u1; u2]
       [account "google-oauth2|1" (Some 5%Z) (Some "2024-11-20T09:15:00.000Z");
        account "auth0|2" (Some 5%Z) (Some "2025-03-01T12:00:00.000Z")])
  = Some u2.
Proof. reflexivity. Qed.

Example decision_skip :
  IdentifyUsers.processDuplicateUsers clock [u1; u2]
    [account "auth0|other" (Some 3%Z) None]
  = {| IdentifyUsers.d_userToKeep := None; IdentifyUsers.d_auth0User := None;
       IdentifyUsers.d_action := skip;
       IdentifyUsers.d_reason := "All users deleted from Auth0";
       IdentifyUsers.d_requiresManualReview := None |}.
Proof. reflexivity. Qed.

Example decision_keep :
  IdentifyUsers.processDuplicateUsers clock [u1; u2; u3]
    [account "auth0|2" None None]
  = {| IdentifyUsers.d_userToKeep := Some u2;
       IdentifyUsers.d_auth0User := Some (account "auth0|2" None None);
       IdentifyUsers.d_action := keep;
       IdentifyUsers.d_reason := "Single user exists in Auth0";
       IdentifyUsers.d_requiresManualReview := None |}.
Proof. reflexivity. Qed.

(** A candidate without [auth0Sub], or with an empty one, never survives. *)
Example decision_without_sub :
  IdentifyUsers.existingUsers [candidate "u4" None; candidate "u5" (Some "")]
    [account "" (Some 1%Z) None]
  = [].
Proof. reflexivity. Qed.

Example query_escapes :
  IdentifyUsers.query "a+b@x.com" = "email:" +:+ IdentifyUsers.dquote +:+ "a\+b@x.com"
                                      +:+ IdentifyUsers.dquote.
Proof. reflexivity. Qed.

Lemma C9_witness :
  fst (IdentifyUsers.processEmailGroup offline clock "a@x.com" [u1; u2] 0 (fresh tt))
  = Resolved {| pr_email := "a@x.com"; duplicates := [u1; u2]; auth0Users := [];
                userToKeep := None; auth0User := None;
                action := skip; reason := "All users deleted from Auth0";
                requiresManualReview := None |}.
Proof.
  apply (proj1 (C9_failed_query_reads_as_all_deleted offline clock "a@x.com" [u1; u2] 0
                  tt tt (OtherError "connect ECONNREFUSED") eq_refl)).
Defined.

(** ** C3: destinations *)

Example rows_grouped :
  IdentifyUsers.usersByEmail rows
  = [("a@x.com", [u1; u2; u3]); ("b@x.com", [v1; v2]); ("c@x.com", [x1; x2])].
Proof. reflexivity. Qed.

(** C3 (the claim as stated fails): in a dry run the three groups get
    their decisions, one of each kind, and none is written anywhere. *)
Lemma C3_dry_run_writes_nothing :
  fst (IdentifyUsers.main tenant clock dry_run rows (fresh tt))
  = Resolved {| IdentifyUsers.totalEmails := 3; IdentifyUsers.actions_keep := 1;
                IdentifyUsers.actions_manual_review := 1;
                IdentifyUsers.actions_skip := 1 |}
  /\ IdentifyUsers.appended "out/users_to_keep.jsonl"
       (trace (snd (IdentifyUsers.main tenant clock dry_run rows (fresh tt)))) = []
  /\ IdentifyUsers.appended "out/manual_review.jsonl"
       (trace (snd (IdentifyUsers.main tenant clock dry_run rows (fresh tt)))) = []
  /\ IdentifyUsers.appended "out/skipped_users.jsonl"
       (trace (snd (IdentifyUsers.main tenant clock dry_run rows (fresh tt)))) = [].
Proof. split_and!; vm_compute; reflexivity. Qed.

(** The same rows without [--dry-run]: one line per file. *)
Example main_writes_one_line_per_file :
  let tr := trace (snd (IdentifyUsers.main tenant clock IdentifyUsers.default_options
                          rows (fresh tt))) in
  (pr_email <$> IdentifyUsers.appended "out/users_to_keep.jsonl" tr) = ["b@x.com"]
  /\ (pr_email <$> IdentifyUsers.appended "out/manual_review.jsonl" tr) = ["a@x.com"]
  /\ (pr_email <$> IdentifyUsers.appended "out/skipped_users.jsonl" tr) = ["c@x.com"]
  /\ (userToKeep <$> IdentifyUsers.appended "out/users_to_keep.jsonl" tr) = [Some v1]
  /\ (userToKeep <$> IdentifyUsers.appended "out/manual_review.jsonl" tr) = [Some u2].
Proof. split_and!; vm_compute; reflexivity. Qed.

Lemma C3_witness :
  exists results st',
    IdentifyUsers.main_loop tenant clock IdentifyUsers.default_options
      (IdentifyUsers.usersByEmail rows) [] 0 (fresh tt) = (Resolved results, st')
    /\ (fun r => (pr_email r, duplicates r)) <$> results = IdentifyUsers.usersByEmail rows
    /\ NoDup (fst <$> IdentifyUsers.usersByEmail rows)
    /\ IdentifyUsers.appended "out/users_to_keep.jsonl" (trace st')
       = List.filter (fun r => bool_decide (action r = keep)) results
    /\ IdentifyUsers.appended "out/manual_review.jsonl" (trace st')
       = List.filter (fun r => bool_decide (action r = manual_review)) results
    /\ IdentifyUsers.appended "out/skipped_users.jsonl" (trace st')
       = List.filter (fun r => bool_decide (action r = skip)) results
    /\ fst (IdentifyUsers.main tenant clock IdentifyUsers.default_options rows (fresh tt))
       = Resolved (IdentifyUsers.summary (IdentifyUsers.usersByEmail rows) results).
Proof.
  apply (C3_each_result_goes_to_the_file_of_its_action tenant clock
           IdentifyUsers.default_options rows tt).
  - reflexivity.
  - apply (bool_decide_unpack _). vm_compute. exact I.
  - intros path data w. reflexivity.
Defined.

(** ** C8: the dispatcher *)

Example schedule_runs :
  MigrateUsers.run PQueue.onSizeLessThan 3 0 (MigrateUsers.main_init 3 10) schedule = Some after_schedule.
Proof. reflexivity. Qed.

(** A rate limit with [retryAfter = 5] pauses the queue for six seconds. *)
Example rate_limit_pauses_for_six_seconds :
  (fun r => (PQueue.isPaused (MigrateUsers.queue r), MigrateUsers.sleeping r))
    <$> MigrateUsers.run PQueue.onSizeLessThan 3 0 (MigrateUsers.main_init 3 10)
          [MigrateUsers.Line;
           MigrateUsers.Settles 0 (Rejected (RateLimitExceededException (Some 5%Z)))]
  = Some (true, [6%Z]).
Proof. reflexivity. Qed.

(** A failure that is not a rate limit is thrown again by the handler and
    ends the run. *)
Example other_failure_ends_the_run :
  MigrateUsers.run PQueue.onSizeLessThan 3 0 (MigrateUsers.main_init 3 10)
    [MigrateUsers.Line; MigrateUsers.Settles 0 (Rejected unprocessable); MigrateUsers.Line]
  = None.
Proof. reflexivity. Qed.

(** While the queue is paused nothing is dispatched, and a slot stays free. *)
Example paused_queue_holds_tasks :
  MigrateUsers.queue
    <$> MigrateUsers.run PQueue.onSizeLessThan 3 0 (MigrateUsers.main_init 3 10)
          [MigrateUsers.Line; MigrateUsers.Line; MigrateUsers.Line;
           MigrateUsers.Settles 1 (Rejected (RateLimitExceededException None))]
  = Some {| PQueue.concurrency := 3; PQueue.running := [0; 2];
            PQueue.waiting := [1]; PQueue.isPaused := true |}.
Proof. reflexivity. Qed.

Lemma C8_witness :
  MigrateUsers.run PQueue.onSizeLessThan 3 0 (MigrateUsers.main_init 3 10) schedule = Some after_schedule
  /\ PQueue.activeCount (MigrateUsers.queue after_schedule) <= 3.
Proof.
  split; [reflexivity|].
  apply (C8_activeCount_never_exceeds_capacity PQueue.onSizeLessThan 3 10 0).
  - lia.
  - apply (run_reachable PQueue.onSizeLessThan 3 10 0 schedule (MigrateUsers.main_init 3 10));
      [apply MigrateUsers.reachable_init | reflexivity].
Defined.


(** With the disk full the append fails; the task logs the error, the
    result stays counted in the summary and is in no file. *)
Example failed_append_is_logged :
  fst (IdentifyUsers.main disk_full clock IdentifyUsers.default_options [u1; u2] (fresh tt))
  = Resolved {| IdentifyUsers.totalEmails := 1; IdentifyUsers.actions_keep := 0;
                IdentifyUsers.actions_manual_review := 0;
                IdentifyUsers.actions_skip := 1 |}
  /\ IdentifyUsers.appended "out/skipped_users.jsonl"
       (trace (snd (IdentifyUsers.main disk_full clock IdentifyUsers.default_options
                      [u1; u2] (fresh tt)))) = []
  /\ last (trace (snd (IdentifyUsers.main disk_full clock IdentifyUsers.default_options
                         [u1; u2] (fresh tt))))
     = Some (Console stderr "(0) Error processing a@x.com:"
               (Some (OtherError "ENOSPC: no space left on device"))).
Proof. split_and!; vm_compute; reflexivity. Qed.

(** With one path for two files, that file receives the results of both
    actions. *)
Example one_path_for_two_actions :
  action <$> IdentifyUsers.appended "out/decisions.jsonl"
               (trace (snd (IdentifyUsers.main tenant clock one_path_twice rows (fresh tt))))
  = [manual_review; keep].
Proof. vm_compute. reflexivity. Qed.

(** ** More of the scripts *)

Lemma decision_ignores_the_order_witness :
  NoDup (a0_user_id <$> accounts_5_10)
  /\ accounts_5_10 ≡ₚ reverse accounts_5_10
  /\ IdentifyUsers.processDuplicateUsers clock [u1; u2; u3] (reverse accounts_5_10)
     = IdentifyUsers.processDuplicateUsers clock [u1; u2; u3] accounts_5_10.
Proof.
  assert (NoDup (a0_user_id <$> accounts_5_10)) as Hnd.
  { apply (bool_decide_unpack _). by vm_compute. }
  assert (accounts_5_10 ≡ₚ reverse accounts_5_10) as Hp.
  { symmetry. apply reverse_Permutation. }
  split_and!; [exact Hnd|exact Hp|].
  exact (decision_ignores_the_order_of_the_accounts clock [u1; u2; u3]
           accounts_5_10 (reverse accounts_5_10) Hnd Hp).
Defined.

Lemma main_counts_each_record_once_witness :
  MigrateUsers.run PQueue.onSizeLessThan 3 0 (MigrateUsers.main_init 3 10) schedule
  = Some after_schedule
  /\ MigrateUsers.recordCount after_schedule + MigrateUsers.unread after_schedule = 10
  /\ NoDup (tasks (MigrateUsers.queue after_schedule))
  /\ (forall t, t ∈ tasks (MigrateUsers.queue after_schedule) ->
        0 <= t < MigrateUsers.recordCount after_schedule)
  /\ MigrateUsers.completedCount after_schedule
       + length (tasks (MigrateUsers.queue after_schedule))
     <= MigrateUsers.recordCount after_schedule - 0
  /\ MigrateUsers.completedCount after_schedule <= MigrateUsers.recordCount after_schedule.
Proof.
  split; [reflexivity|].
  apply (main_counts_each_record_once PQueue.onSizeLessThan 3 10 0).
  apply (run_reachable PQueue.onSizeLessThan 3 10 0 schedule (MigrateUsers.main_init 3 10));
    [apply MigrateUsers.reachable_init | reflexivity].
Defined.

(** The rows of the sample file, grouped: three emails, in the order in
    which the file first has them. *)
Example rows_first_seen :
  fst <$> IdentifyUsers.usersByEmail rows = ["a@x.com"; "b@x.com"; "c@x.com"]
  /\ group_of "b@x.com" (IdentifyUsers.usersByEmail rows) = Some [v1; v2].
Proof. split; reflexivity. Qed.

(** An email with a backslash and a plus sign in it. *)
Example escape_reads_back :
  unescape (IdentifyUsers.escape "o\reilly+x@x.com") = "o\reilly+x@x.com"
  /\ IdentifyUsers.escape "o\reilly+x@x.com" = "o\\reilly\+x@x.com".
Proof. split; reflexivity. Qed.

(** A dry run over the sample file: three queries, no append, one pause
    after the third group. *)
Example dry_run_calls :
  calls (trace (snd (IdentifyUsers.main_loop tenant clock dry_run
                       (IdentifyUsers.usersByEmail rows) [] 0 (fresh tt))))
  = [auth0_users_getAll (IdentifyUsers.query "a@x.com");
     auth0_users_getAll (IdentifyUsers.query "b@x.com");
     auth0_users_getAll (IdentifyUsers.query "c@x.com")]
  /\ sleeps (trace (snd (IdentifyUsers.main_loop tenant clock dry_run
                           (IdentifyUsers.usersByEmail rows) [] 0 (fresh tt))))
     = [Js.Num 1000].
Proof. split; reflexivity. Qed.

(** A line of the password export without [identifiers] does not parse,
    and the task rejects before any call. *)
Example password_line_without_identifiers :
  ImportPasswords.processLine offline toLowerCase_ascii
    (Js.JObject [("_id", Js.JString "1"); ("email", Js.JString "ada@example.com");
                 ("tenant", Js.JString "dust"); ("connection", Js.JString "db");
                 ("passwordHash", Js.JString "$2b$10$abc"); ("version", Js.JString "1")])
    0 (fresh tt)
  = (Rejected ZodError, fresh tt).
Proof. reflexivity. Qed.

Example password_line_parses :
  ImportPasswords.Auth0ExportedUser_parse
    (Js.JObject [("_id", Js.JString "1"); ("email", Js.JString "ada@example.com");
                 ("tenant", Js.JString "dust"); ("connection", Js.JString "db");
                 ("passwordHash", Js.JString "$2b$10$abc"); ("version", Js.JString "1");
                 ("identifiers",
                  Js.JArray [Js.JObject [("type", Js.JString "email");
                                         ("value", Js.JString "ada@example.com");
                                         ("verified", Js.JBool true)]])])
  = Resolved {| ImportPasswords._id := "1"; ImportPasswords.email := "ada@example.com";
                ImportPasswords.passwordHash := "$2b$10$abc" |}.
Proof. reflexivity. Qed.

(** Two rows of the mapping file for one Auth0 id, and a row without a
    WorkOS id: the later complete row is the mapping. *)
Example mappings_last_row_wins :
  UpdateWorkosIds.loadWorkOSMappings
    [{| UpdateWorkosIds.wm_workos_user_id := Some "user_01A";
        UpdateWorkosIds.wm_auth0_user_id := Some "auth0|b";
        UpdateWorkosIds.wm_created := Some "true" |};
     {| UpdateWorkosIds.wm_workos_user_id := Some "user_01B";
        UpdateWorkosIds.wm_auth0_user_id := Some "auth0|b";
        UpdateWorkosIds.wm_created := Some "false" |};
     {| UpdateWorkosIds.wm_workos_user_id := Some "";
        UpdateWorkosIds.wm_auth0_user_id := Some "auth0|b";
        UpdateWorkosIds.wm_created := Some "false" |}] !! "auth0|b"
  = Some "user_01B".
Proof. by vm_compute. Qed.

Example remove_commas_57_027 : UpdateWorkosIds.remove_commas "57,027" = "57027".
Proof. reflexivity. Qed.

Lemma paused_queue_has_a_wake_up_pending_witness :
  MigrateUsers.run PQueue.onSizeLessThan 3 0 (MigrateUsers.main_init 3 10) throttled_schedule
  = Some after_throttled_schedule
  /\ PQueue.isPaused (MigrateUsers.queue after_throttled_schedule) = true
  /\ exists seconds rest, MigrateUsers.sleeping after_throttled_schedule = seconds :: rest.
Proof.
  split; [reflexivity|]. split; [reflexivity|].
  apply (paused_queue_has_a_wake_up_pending PQueue.onSizeLessThan 3 10 0).
  - apply (run_reachable PQueue.onSizeLessThan 3 10 0 throttled_schedule
             (MigrateUsers.main_init 3 10));
      [apply MigrateUsers.reachable_init | reflexivity].
  - reflexivity.
Defined.
